(** * DocZen: the job lifecycle of the backend service and of the worker

    A shallow embedding of
      - [backend/app/schemas/file.py]   (JobStatus, JobType, JobCreate, JobUpdate),
      - [backend/app/models/job.py]     (PyObjectId, MongoBaseModel, Job),
      - [backend/app/core/redis.py]     (RedisClient),
      - [backend/app/services/job_service.py] (JobService),
      - [backend/app/api/v1/files.py]   (the job endpoints),
      - [workers/main.py]               (the Celery tasks and their dispatcher),
    and, further down, of the file and share-link operations of
    [backend/app/services/file_service.py], followed by the properties
    proved about them.

    Conventions.  MongoDB's [jobs] collection is the list of its documents in
    insertion order; a document has the keys [Job.to_dict] writes, so it is
    carried as a [Job] record, and turning a document into a [Job] object is
    the separate, fallible step [Job.from_dict].  [datetime.utcnow()] reads
    the clock of the world, whose readings within one call that no
    suspension point interrupts are equal; [uuid.uuid4()] is an argument of
    the operation that calls it.  Python exceptions are the [Raise] outcome of a
    computation; an exception no handler catches leaves an endpoint as it is
    and is answered with status 500 by the framework.  The endpoints are the
    handler functions, given the user that [get_current_user] resolved.  A
    coroutine runs without interruption between two of the suspension points
    that the model makes explicit: the sleeping background task of
    [_simulate_job_processing] and a [cancel_job] call waiting for its
    write. *)

From Stdlib Require Import ZArith Ascii String List Permutation Lia.
From stdpp Require Import base option list strings gmap.

Local Open Scope Z_scope.
Local Open Scope string_scope.

(** ** Python values shared by the modules *)

(** A [dict] payload ([parameters], [result]): keys to opaque values. *)
Abbreviation dict := (gmap string string).

Inductive exn : Type :=
  | HTTPException (status_code : Z) (detail : string)
  | RequestValidationError (field_name : string)
  | ResponseError (message : string)
  | PyException (class_name : string) (message : string).

(** [str(e)] *)
Definition str (e : exn) : string :=
  match e with
  | HTTPException _ detail => detail
  | RequestValidationError f => f
  | ResponseError m => m
  | PyException _ m => m
  end.

Inductive outcome (A : Type) : Type :=
  | Return (a : A)
  | Raise (e : exn).
Arguments Return {A} a.
Arguments Raise {A} e.

#[local] Unset Elimination Schemes.
Inductive json : Type :=
  | JNull
  | JBool (b : bool)
  | JNum (n : Z)
  | JStr (s : string)
  | JArr (items : list json)
  | JObj (members : list (string * json)).
#[local] Set Elimination Schemes.

(** ** app/schemas/file.py *)
Module Schema.

Inductive JobStatus : Type :=
  | PENDING | PROCESSING | COMPLETED | FAILED | CANCELLED.

Definition JobStatus_value (s : JobStatus) : string :=
  match s with
  | PENDING => "pending"
  | PROCESSING => "processing"
  | COMPLETED => "completed"
  | FAILED => "failed"
  | CANCELLED => "cancelled"
  end.

Inductive JobType : Type :=
  | MERGE_PDF | SPLIT_PDF | COMPRESS_PDF
  | CONVERT_PDF_TO_WORD | CONVERT_WORD_TO_PDF
  | CONVERT_IMAGE_TO_PDF | CONVERT_PDF_TO_IMAGE
  | EXTRACT_PAGES | REMOVE_PAGES | ROTATE_PAGES
  | ADD_WATERMARK | PROTECT_PDF | REMOVE_PROTECTION
  | OCR_PROCESSING.

Definition JobType_value (t : JobType) : string :=
  match t with
  | MERGE_PDF => "merge_pdf"
  | SPLIT_PDF => "split_pdf"
  | COMPRESS_PDF => "compress_pdf"
  | CONVERT_PDF_TO_WORD => "convert_pdf_to_word"
  | CONVERT_WORD_TO_PDF => "convert_word_to_pdf"
  | CONVERT_IMAGE_TO_PDF => "convert_image_to_pdf"
  | CONVERT_PDF_TO_IMAGE => "convert_pdf_to_image"
  | EXTRACT_PAGES => "extract_pages"
  | REMOVE_PAGES => "remove_pages"
  | ROTATE_PAGES => "rotate_pages"
  | ADD_WATERMARK => "add_watermark"
  | PROTECT_PDF => "protect_pdf"
  | REMOVE_PROTECTION => "remove_protection"
  | OCR_PROCESSING => "ocr_processing"
  end.

(** The members of the enumeration, in declaration order. *)
Definition JobType_members : list JobType :=
  [ MERGE_PDF; SPLIT_PDF; COMPRESS_PDF; CONVERT_PDF_TO_WORD;
    CONVERT_WORD_TO_PDF; CONVERT_IMAGE_TO_PDF; CONVERT_PDF_TO_IMAGE;
    EXTRACT_PAGES; REMOVE_PAGES; ROTATE_PAGES; ADD_WATERMARK; PROTECT_PDF;
    REMOVE_PROTECTION; OCR_PROCESSING ].

(** [JobType(s)]: the member whose value is [s], if any. *)
Definition JobType_of_value (s : string) : option JobType :=
  List.find (fun t => String.eqb (JobType_value t) s) JobType_members.

#[global] Instance JobStatus_eq_dec : EqDecision JobStatus.
Proof. solve_decision. Defined.
#[global] Instance JobType_eq_dec : EqDecision JobType.
Proof. solve_decision. Defined.

(** class JobBase / JobCreate *)
Record JobCreate : Type := mkJobCreate {
  jc_job_type : JobType;
  jc_user_id : string;
  jc_input_files : list string;
  jc_parameters : option dict;       (* Optional[dict] = {} *)
  jc_priority : Z                    (* int = 1 *)
}.

(** The body of a POST /jobs request.  The two fields whose validation the
    job catalog and the input references depend on are raw JSON; the others
    are given as parsed. *)
Record JobBody : Type := mkJobBody {
  body_job_type : json;
  body_user_id : string;
  body_input_files : json;
  body_parameters : option dict;
  body_priority : Z
}.

(** [job_type: JobType]: a string that is the value of a member. *)
Definition validate_job_type (v : json) : option JobType :=
  match v with
  | JStr s => JobType_of_value s
  | _ => None
  end.

Definition validate_str (v : json) : option string :=
  match v with
  | JStr s => Some s
  | _ => None
  end.

(** [input_files: List[str]]: an array whose items are all strings. *)
Definition validate_input_files (v : json) : option (list string) :=
  match v with
  | JArr items => mapM validate_str items
  | _ => None
  end.

(** Parsing the body into a [JobCreate]; a field that does not validate is
    reported by the 422 response of the framework. *)
Definition validate_JobCreate (b : JobBody) : outcome JobCreate :=
  match validate_job_type (body_job_type b) with
  | None => Raise (RequestValidationError "job_type")
  | Some t =>
      match validate_input_files (body_input_files b) with
      | None => Raise (RequestValidationError "input_files")
      | Some files =>
          Return (mkJobCreate t (body_user_id b) files
                               (body_parameters b) (body_priority b))
      end
  end.

(** A field of a [JobUpdate]: never assigned, or assigned a value that may
    be [None]. *)
Inductive field (A : Type) : Type :=
  | Unset
  | Assigned (v : option A).
Arguments Unset {A}.
Arguments Assigned {A} v.

(** class JobUpdate: four optional fields, all defaulting to [None]. *)
Record JobUpdate : Type := mkJobUpdate {
  ju_status : field JobStatus;
  ju_progress : field Z;
  ju_result : field dict;
  ju_error_message : field string
}.

End Schema.
Export Schema.

(** ** app/models/job.py *)
Module Model.

(** class Job.  The document identifier [_id] is carried as the string the
    service generates for it. *)
Record Job : Type := mkJob {
  id : string;
  job_id : string;
  job_type : JobType;
  user_id : string;
  input_files : list string;
  parameters : option dict;
  priority : Z;
  status : JobStatus;
  progress : Z;
  result : option dict;
  error_message : option string;
  created_at : Z;
  updated_at : Z;
  completed_at : option Z
}.

#[global] Instance Job_eq_dec : EqDecision Job.
Proof. solve_decision. Defined.

(** *** [PyObjectId] and the [id] field of [MongoBaseModel]

    [PyObjectId] offers its validator through [__get_validators__].  The
    models are pydantic 2 models ([model_config], [pydantic_settings]), and
    pydantic 2 calls every function that generator yields with two
    arguments, the value and the validation info.  [validate(cls, v)] takes
    the value alone: the call raises [TypeError] before the body of
    [validate] runs, whatever the value is.  A [TypeError] is not a
    validation error; it leaves the constructor of the model at once. *)
Definition validator_call_error : exn :=
  PyException "TypeError"
    "PyObjectId.validate() takes 2 positional arguments but 3 were given".

Definition PyObjectId_validate (v : string) : outcome string :=
  Raise validator_call_error.

(** [id: Optional[PyObjectId]]: [None] is taken as it is, any other value
    goes to the validator.  (The default factory runs only when the data
    has no [_id] and no [id] entry.) *)
Definition validate_id (v : option string) : outcome (option string) :=
  match v with
  | None => Return None
  | Some s =>
      match PyObjectId_validate s with
      | Return s' => Return (Some s')
      | Raise e => Raise e
      end
  end.

(** The constructor call [Job] makes on data with an [_id] or [id] entry.  [id] is the first
    field of the model and is validated first; the fields after it are
    reached only when it validates. *)
Definition Job_init (data : Job) : outcome Job :=
  match validate_id (Some (id data)) with
  | Raise e => Raise e
  | Return _ => Return data
  end.

(** [Job.from_dict(data)] on a stored document: the [_id] entry is renamed
    [id] and the constructor is called. *)
Definition from_dict (data : Job) : outcome Job := Job_init data.

End Model.
Export Model.

(** ** app/core/redis.py *)
Module Redis.

(** What a key of the server holds. *)
Inductive rvalue : Type :=
  | RString (s : string)
  | RList (items : list string).

#[global] Instance rvalue_eq_dec : EqDecision rvalue.
Proof. solve_decision. Defined.

(** [RedisClient.redis]: [None] until [connect] has run ([NoClient]); then
    a client object, whose commands reach a server with its keyspace
    ([Connected]) or fail with the connection error of the library
    ([Unreachable]): [connect] only builds the client, and the application
    goes on with the client set when the first [ping] fails. *)
Inductive client : Type :=
  | NoClient
  | Connected (db : gmap string rvalue)
  | Unreachable (error : exn).

Definition WRONGTYPE : exn :=
  ResponseError
    "WRONGTYPE Operation against a key holding the wrong kind of value".

(** [RedisClient.lpush(key, *values)]: the values are pushed on the head one
    after the other; the reply is the new length.  Without a connection the
    call does nothing and returns 0. *)
Definition lpush (key : string) (values : list string) (c : client)
  : outcome Z * client :=
  match c with
  | NoClient => (Return 0, NoClient)
  | Unreachable e => (Raise e, c)
  | Connected db =>
      match values with
      | [] => (Raise (ResponseError
                 "wrong number of arguments for 'lpush' command"), c)
      | _ :: _ =>
          match db !! key with
          | Some (RString _) => (Raise WRONGTYPE, c)
          | Some (RList l) =>
              let l' := (rev values ++ l)%list in
              (Return (Z.of_nat (length l')),
               Connected (<[key := RList l']> db))
          | None =>
              let l' := rev values in
              (Return (Z.of_nat (length l')),
               Connected (<[key := RList l']> db))
          end
      end
  end.

(** [RedisClient.rpop(key)]: the tail of the list, [None] when the key is
    absent; a list that becomes empty is removed from the keyspace. *)
Definition rpop (key : string) (c : client) : outcome (option string) * client :=
  match c with
  | NoClient => (Return None, NoClient)
  | Unreachable e => (Raise e, c)
  | Connected db =>
      match db !! key with
      | Some (RString _) => (Raise WRONGTYPE, c)
      | Some (RList l) =>
          match last l with
          | None => (Return None, c)
          | Some x =>
              match removelast l with
              | [] => (Return (Some x), Connected (delete key db))
              | l' => (Return (Some x), Connected (<[key := RList l']> db))
              end
          end
      | None => (Return None, c)
      end
  end.

(** [RedisClient.llen(key)] *)
Definition llen (key : string) (c : client) : outcome Z * client :=
  match c with
  | NoClient => (Return 0, NoClient)
  | Unreachable e => (Raise e, c)
  | Connected db =>
      match db !! key with
      | Some (RString _) => (Raise WRONGTYPE, c)
      | Some (RList l) => (Return (Z.of_nat (length l)), c)
      | None => (Return 0, c)
      end
  end.

(** [RedisClient.delete(key)]: the number of keys removed; [False] without a
    connection. *)
Definition delete (key : string) (c : client) : outcome Z * client :=
  match c with
  | NoClient => (Return 0, NoClient)
  | Unreachable e => (Raise e, c)
  | Connected db =>
      match db !! key with
      | Some _ => (Return 1, Connected (base.delete key db))
      | None => (Return 0, c)
      end
  end.

End Redis.

(** ** app/services/job_service.py *)
Module JobService.

(** A coroutine started by [asyncio.create_task(process())] and not yet past
    its [asyncio.sleep(2)]: the time it wakes at and the [job_id] its closure
    captured. *)
Record Task : Type := mkTask {
  wake : Z;
  task_job_id : string
}.

(** What the service reads and writes: the clock, the [jobs] collection, the
    Redis client of the process and the event loop's sleeping tasks. *)
Record World : Type := mkWorld {
  now : Z;
  jobs : list Job;
  redis : Redis.client;
  tasks : list Task
}.

Definition with_jobs (c : list Job) (w : World) : World :=
  mkWorld (now w) c (redis w) (tasks w).
Definition with_redis (r : Redis.client) (w : World) : World :=
  mkWorld (now w) (jobs w) r (tasks w).
Definition with_tasks (t : list Task) (w : World) : World :=
  mkWorld (now w) (jobs w) (redis w) t.

(** Computations of the service: they may raise and they change the world. *)
Definition M (A : Type) : Type := World -> outcome A * World.

Definition ret {A} (a : A) : M A := fun w => (Return a, w).
Definition raise {A} (e : exn) : M A := fun w => (Raise e, w).
Definition bind {A B} (c : M A) (k : A -> M B) : M B :=
  fun w =>
    match c w with
    | (Return a, w') => k a w'
    | (Raise e, w') => (Raise e, w')
    end.

Notation "'let*' x ':=' c 'in' k" := (bind c (fun x => k))
  (at level 10, x name, c at level 100, k at level 200).

(** [datetime.utcnow()] *)
Definition utcnow : M Z := fun w => (Return (now w), w).

(** A step that reads and writes nothing of the world. *)
Definition lift_outcome {A} (o : outcome A) : M A := fun w => (o, w).

(** *** The collection *)

Definition by_job_id (jid : string) (j : Job) : bool :=
  bool_decide (job_id j = jid).
Definition by_job_id_and_user (jid uid : string) (j : Job) : bool :=
  bool_decide (job_id j = jid) && bool_decide (user_id j = uid).

(** [collection.find_one(query)]: the first document that matches. *)
Definition find_one (query : Job -> bool) : M (option Job) :=
  fun w => (Return (List.find query (jobs w)), w).

(** [collection.insert_one(doc)] *)
Definition insert_one (doc : Job) : M unit :=
  fun w => (Return tt, with_jobs (jobs w ++ [doc])%list w).

Record UpdateResult : Type := mkUpdateResult {
  matched_count : Z;
  modified_count : Z
}.

(** [update_one]: the first document that matches is replaced by its update;
    it counts as modified when the update changed it. *)
Fixpoint update_first (query : Job -> bool) (f : Job -> Job) (c : list Job)
  : UpdateResult * list Job :=
  match c with
  | [] => (mkUpdateResult 0 0, [])
  | j :: c' =>
      if query j
      then (mkUpdateResult 1 (if decide (f j = j) then 0 else 1), f j :: c')
      else let '(r, c'') := update_first query f c' in (r, j :: c'')
  end.

Definition update_one (query : Job -> bool) (f : Job -> Job) : M UpdateResult :=
  fun w =>
    let '(r, c) := update_first query f (jobs w) in (Return r, with_jobs c w).

(** The [update_data] dictionary of [update_job]: its keys are among these
    six, a key that is absent is [None] here. *)
Record UpdateData : Type := mkUpdateData {
  set_status : option JobStatus;
  set_progress : option Z;
  set_result : option dict;
  set_error_message : option string;
  set_updated_at : option Z;
  set_completed_at : option Z
}.

(** One entry of [job_update.dict(exclude_unset=True)] after the filter
    [if v is not None]. *)
Definition not_none {A} (f : field A) : option A :=
  match f with
  | Unset => None
  | Assigned v => v
  end.

(** [{"$set": update_data}] applied to a document. *)
Definition apply_set (u : UpdateData) (j : Job) : Job :=
  mkJob (id j) (job_id j) (job_type j) (user_id j) (input_files j)
        (parameters j) (priority j)
        (default (status j) (set_status u))
        (default (progress j) (set_progress u))
        (match set_result u with Some r => Some r | None => result j end)
        (match set_error_message u with
         | Some m => Some m | None => error_message j end)
        (created_at j)
        (default (updated_at j) (set_updated_at u))
        (match set_completed_at u with
         | Some t => Some t | None => completed_at j end).

(** *** The queue *)

Definition lift_redis {A} (op : Redis.client -> outcome A * Redis.client) : M A :=
  fun w => let '(r, c) := op (redis w) in (r, with_redis c w).

(** The task body of [_simulate_job_processing] is scheduled, not run. *)
Definition create_task (jid : string) : M unit :=
  fun w => (Return tt, with_tasks (tasks w ++ [mkTask (now w + 2) jid])%list w).

Definition _simulate_job_processing (jid : string) : M unit :=
  create_task jid.

Definition _queue_job (jid : string) : M unit :=
  let* _ := lift_redis (Redis.lpush "job_queue" [jid]) in
  _simulate_job_processing jid.

Definition _remove_from_queue (jid : string) : M unit :=
  let* _ := lift_redis (Redis.delete ("job:" ++ jid)) in
  ret tt.

(** *** The operations *)

(** [create_job]; [uuid_job] and [uuid_doc] are the two [uuid4()] strings, in
    the order the function draws them.  The [user_id] argument ([caller]) is
    not used by the function. *)
Definition create_job (job_data : JobCreate) (caller : string)
    (uuid_job uuid_doc : string) : M Job :=
  let* t_created := utcnow in
  let* t_updated := utcnow in
  let job_dict :=
    mkJob uuid_doc uuid_job (jc_job_type job_data) (jc_user_id job_data)
          (jc_input_files job_data) (jc_parameters job_data)
          (jc_priority job_data)
          PENDING 0 None None t_created t_updated None in
  let* job := lift_outcome (Job_init job_dict) in
  let* _ := insert_one job in
  let* _ := _queue_job uuid_job in
  ret job.

Definition get_job (jid uid : string) : M (option Job) :=
  let* job_data := find_one (by_job_id_and_user jid uid) in
  match job_data with
  | Some data => let* job := lift_outcome (from_dict data) in ret (Some job)
  | None => ret None
  end.

Definition update_data_of (job_update : JobUpdate) (t_updated t_completed : Z)
  : UpdateData :=
  let st := not_none (ju_status job_update) in
  mkUpdateData st
    (not_none (ju_progress job_update))
    (not_none (ju_result job_update))
    (not_none (ju_error_message job_update))
    (Some t_updated)
    (if bool_decide (st = Some COMPLETED) then Some t_completed else None).

Definition update_job (jid : string) (job_update : JobUpdate) : M (option Job) :=
  let* t_updated := utcnow in
  let* t_completed := utcnow in
  let update_data := update_data_of job_update t_updated t_completed in
  let* res := update_one (by_job_id jid) (apply_set update_data) in
  if bool_decide (modified_count res ≠ 0)
  then
    let* job_data := find_one (by_job_id jid) in
    match job_data with
    | Some data => let* job := lift_outcome (from_dict data) in ret (Some job)
    | None =>
        raise (PyException "TypeError"
                 "argument of type 'NoneType' is not iterable")
    end
  else ret None.

(** [JobUpdate(status="cancelled")] *)
Definition cancelled_update : JobUpdate :=
  mkJobUpdate (Assigned (Some CANCELLED)) Unset Unset Unset.

(** [JobUpdate(status="completed", progress=100, result={...})] *)
Definition completed_update : JobUpdate :=
  mkJobUpdate (Assigned (Some COMPLETED)) (Assigned (Some 100))
    (Assigned (Some {[ "message" := "Job completed successfully" ]})) Unset.

(** The part of [cancel_job] after the job was read. *)
Definition cancel_job_write (jid : string) (observed : JobStatus) : M bool :=
  let* _ := update_job jid cancelled_update in
  let* _ := (if bool_decide (observed = PENDING)
             then _remove_from_queue jid else ret tt) in
  ret true.

(** The part of [cancel_job] up to the read and the two early returns:
    [inl b] is the value returned early, [inr s] the status that was read. *)
Definition cancel_job_read (jid uid : string) : M (bool + JobStatus) :=
  let* job := get_job jid uid in
  match job with
  | None => ret (inl false)
  | Some job =>
      if negb (bool_decide (status job ∈ [PENDING; PROCESSING]))
      then ret (inl false)
      else ret (inr (status job))
  end.

Definition cancel_job (jid uid : string) : M bool :=
  let* r := cancel_job_read jid uid in
  match r with
  | inl b => ret b
  | inr observed => cancel_job_write jid observed
  end.

(** The body of [process()] once the sleep is over. *)
Definition process (jid : string) : M unit :=
  let* job_data := find_one (by_job_id jid) in
  match job_data with
  | Some _ => let* _ := update_job jid completed_update in ret tt
  | None => ret tt
  end.

(** The event loop resumes the [i]-th sleeping task once its wake time is
    reached; an exception of a background task stays in the task. *)
Definition run_task (i : nat) (w : World) : option World :=
  match tasks w !! i with
  | Some t =>
      if bool_decide (wake t <= now w)
      then Some (snd (process (task_job_id t)
                        (with_tasks (base.delete i (tasks w)) w)))
      else None
  | None => None
  end.

(** Time passes. *)
Definition advance (d : Z) (w : World) : World :=
  mkWorld (now w + d) (jobs w) (redis w) (tasks w).

End JobService.

(** ** app/api/v1/files.py: the job endpoints *)
Module Api.
Import JobService.

(** POST /jobs *)
Definition create_job (body : JobBody) (current_user : string)
    (uuid_job uuid_doc : string) : M Job :=
  match validate_JobCreate body with
  | Raise e => raise e
  | Return job_data =>
      JobService.create_job job_data current_user uuid_job uuid_doc
  end.

(** GET /jobs/{job_id} *)
Definition get_job (jid current_user : string) : M Job :=
  let* job := JobService.get_job jid current_user in
  match job with
  | None => raise (HTTPException 404 "Job not found")
  | Some job => ret job
  end.

(** DELETE /jobs/{job_id} *)
Definition cancel_job (jid current_user : string) : M dict :=
  let* success := JobService.cancel_job jid current_user in
  if negb success
  then raise (HTTPException 404 "Job not found or cannot be cancelled")
  else ret {[ "message" := "Job cancelled successfully" ]}.

End Api.

(** ** workers/main.py *)
Module Worker.

(** The catalog operations are external: a call returns a result payload or
    raises.  [input_file] of a conversion or OCR task may be [None]. *)
Record PDFService : Type := mkPDFService {
  merge_pdfs : list string -> dict -> outcome dict;
  split_pdf : string -> dict -> outcome dict;
  compress_pdf : string -> dict -> outcome dict;
  extract_pages : string -> dict -> outcome dict;
  remove_pages : string -> dict -> outcome dict;
  rotate_pages : string -> dict -> outcome dict;
  add_watermark : string -> dict -> outcome dict;
  protect_pdf : string -> dict -> outcome dict;
  remove_protection : string -> dict -> outcome dict
}.

Record ConversionService : Type := mkConversionService {
  pdf_to_word : option string -> dict -> outcome dict;
  word_to_pdf : option string -> dict -> outcome dict;
  image_to_pdf : option string -> dict -> outcome dict;
  pdf_to_image : option string -> dict -> outcome dict
}.

Record OCRService : Type := mkOCRService {
  process_ocr : option string -> dict -> outcome dict
}.

Record Services : Type := mkServices {
  pdf_service : PDFService;
  conversion_service : ConversionService;
  ocr_service : OCRService
}.

(** A line printed on the worker's standard output. *)
Inductive line : Type :=
  | StatusLine (job_id : string) (status : string) (progress : Z)
      (* Job {job_id} status: {status}, progress: {progress}% *)
  | CompletedLine (job_id : string) (result : dict)
      (* Job {job_id} completed with result: {result} *)
  | FailedLine (job_id : string) (error_message : string).
      (* Job {job_id} failed with error: {error_message} *)

#[global] Instance line_eq_dec : EqDecision line.
Proof. solve_decision. Defined.

(** Truth value of an optional dictionary and of an optional string. *)
Definition truthy_dict (d : option dict) : bool :=
  match d with
  | Some d => negb (bool_decide (d = ∅))
  | None => false
  end.
Definition truthy_str (s : option string) : bool :=
  match s with
  | Some s => negb (bool_decide (s = EmptyString))
  | None => false
  end.

(** [update_job_status]: what it prints. *)
Definition update_job_status (job_id status : string) (progress : Z)
    (result : option dict) (error_message : option string) : list line :=
  StatusLine job_id status progress ::
  (if bool_decide (status = "completed") && truthy_dict result
   then [CompletedLine job_id (default ∅ result)]
   else if bool_decide (status = "failed") && truthy_str error_message
   then [FailedLine job_id (default EmptyString error_message)]
   else []).

(** [input_files[0]] *)
Definition first_file (input_files : list string) : outcome string :=
  match input_files with
  | f :: _ => Return f
  | [] => Raise (PyException "IndexError" "list index out of range")
  end.

Definition with_first (input_files : list string)
    (op : string -> outcome dict) : outcome dict :=
  match first_file input_files with
  | Return f => op f
  | Raise e => Raise e
  end.

Section Tasks.
Variable services : Services.

(** The [try] block of [process_pdf_task] after the first status update. *)
Definition pdf_operation (task_type : string) (input_files : list string)
    (parameters : dict) : outcome dict :=
  let pdf := pdf_service services in
  if bool_decide (task_type = "merge_pdf")
  then merge_pdfs pdf input_files parameters
  else if bool_decide (task_type = "split_pdf")
  then with_first input_files (fun f => split_pdf pdf f parameters)
  else if bool_decide (task_type = "compress_pdf")
  then with_first input_files (fun f => compress_pdf pdf f parameters)
  else if bool_decide (task_type = "extract_pages")
  then with_first input_files (fun f => extract_pages pdf f parameters)
  else if bool_decide (task_type = "remove_pages")
  then with_first input_files (fun f => remove_pages pdf f parameters)
  else if bool_decide (task_type = "rotate_pages")
  then with_first input_files (fun f => rotate_pages pdf f parameters)
  else if bool_decide (task_type = "add_watermark")
  then with_first input_files (fun f => add_watermark pdf f parameters)
  else if bool_decide (task_type = "protect_pdf")
  then with_first input_files (fun f => protect_pdf pdf f parameters)
  else if bool_decide (task_type = "remove_protection")
  then with_first input_files (fun f => remove_protection pdf f parameters)
  else Raise (PyException "ValueError" ("Unknown task type: " ++ task_type)).

Definition conversion_operation (task_type : string)
    (input_file : option string) (parameters : dict) : outcome dict :=
  let conv := conversion_service services in
  if bool_decide (task_type = "pdf_to_word")
  then pdf_to_word conv input_file parameters
  else if bool_decide (task_type = "word_to_pdf")
  then word_to_pdf conv input_file parameters
  else if bool_decide (task_type = "image_to_pdf")
  then image_to_pdf conv input_file parameters
  else if bool_decide (task_type = "pdf_to_image")
  then pdf_to_image conv input_file parameters
  else Raise (PyException "ValueError"
                ("Unknown conversion type: " ++ task_type)).

(** The frame the three tasks share: report processing, run the operation,
    report completed and return, or report failed and raise again. *)
Definition run_reporting (job_id : string) (operation : outcome dict)
  : list line * outcome dict :=
  let started := update_job_status job_id "processing" 0 None None in
  match operation with
  | Return result =>
      ((started ++ update_job_status job_id "completed" 100 (Some result) None)%list,
       Return result)
  | Raise e =>
      ((started ++ update_job_status job_id "failed" 0 None (Some (str e)))%list,
       Raise e)
  end.

Definition process_pdf_task (task_type : string) (input_files : list string)
    (parameters : dict) (job_id : string) : list line * outcome dict :=
  run_reporting job_id (pdf_operation task_type input_files parameters).

Definition convert_file_task (task_type : string) (input_file : option string)
    (parameters : dict) (job_id : string) : list line * outcome dict :=
  run_reporting job_id (conversion_operation task_type input_file parameters).

Definition ocr_task (input_file : option string) (parameters : dict)
    (job_id : string) : list line * outcome dict :=
  run_reporting job_id (process_ocr (ocr_service services) input_file parameters).

(** A task handed to Celery by [.delay(...)]. *)
Inductive task : Type :=
  | PdfTask (task_type : string) (input_files : list string)
      (parameters : dict) (job_id : string)
  | ConvertTask (task_type : string) (input_file : option string)
      (parameters : dict) (job_id : string)
  | OcrTask (input_file : option string) (parameters : dict) (job_id : string).

Definition task_job (t : task) : string :=
  match t with
  | PdfTask _ _ _ j => j
  | ConvertTask _ _ _ j => j
  | OcrTask _ _ j => j
  end.

(** A worker process executes a task it received. *)
Definition execute (t : task) : list line * outcome dict :=
  match t with
  | PdfTask ty files params j => process_pdf_task ty files params j
  | ConvertTask ty file params j => convert_file_task ty file params j
  | OcrTask file params j => ocr_task file params j
  end.

End Tasks.

(** The JSON body of POST /process, as [data.get] reads it. *)
Record ProcessRequest : Type := mkProcessRequest {
  req_task_type : option string;
  req_input_files : list string;
  req_parameters : dict;
  req_job_id : option string
}.

Definition pdf_task_types : list string :=
  [ "merge_pdf"; "split_pdf"; "compress_pdf"; "extract_pages"; "remove_pages";
    "rotate_pages"; "add_watermark"; "protect_pdf"; "remove_protection" ].
Definition conversion_task_types : list string :=
  [ "pdf_to_word"; "word_to_pdf"; "image_to_pdf"; "pdf_to_image" ].

(** [process_file]: the task it submits, or the 400 response. *)
Definition process_file (data : ProcessRequest) : (Z * string) + task :=
  match req_task_type data, req_job_id data with
  | Some task_type, Some job_id =>
      if bool_decide (task_type = EmptyString) || bool_decide (job_id = EmptyString)
      then inl (400, "Missing required parameters")
      else if String.prefix "pdf_" task_type
              || bool_decide (task_type ∈ pdf_task_types)
      then inr (PdfTask task_type (req_input_files data)
                  (req_parameters data) job_id)
      else if String.prefix "convert_" task_type
              || bool_decide (task_type ∈ conversion_task_types)
      then inr (ConvertTask task_type (head (req_input_files data))
                  (req_parameters data) job_id)
      else if bool_decide (task_type = "ocr_processing")
      then inr (OcrTask (head (req_input_files data))
                  (req_parameters data) job_id)
      else inl (400, "Unknown task type")
  | _, _ => inl (400, "Missing required parameters")
  end.

(** Workers run concurrently: what appears on the output is an interleaving
    of what each task prints. *)
Inductive interleaving {A : Type} : list (list A) -> list A -> Prop :=
  | interleaving_done (ls : list (list A)) :
      Forall (fun l => l = []) ls -> interleaving ls []
  | interleaving_step (ls1 ls2 : list (list A)) (x : A) (l out : list A) :
      interleaving (ls1 ++ l :: ls2) out ->
      interleaving (ls1 ++ (x :: l) :: ls2) (x :: out).

End Worker.

(** ** The deployment: one backend process and the workers

    [workers/main.py] imports neither the collection nor the job service: a
    task changes the worker's output and nothing of the backend. *)
Module Deployment.
Import JobService Worker.

Record System : Type := mkSystem {
  backend : World;
  worker_stdout : list line
}.

Definition worker_executes (services : Services) (t : task) (s : System)
  : System :=
  mkSystem (backend s) (worker_stdout s ++ fst (execute services t))%list.

Definition backend_does {A} (c : M A) (s : System) : outcome A * System :=
  let '(r, w) := c (backend s) in (r, mkSystem w (worker_stdout s)).

End Deployment.

(** * Vocabulary of the properties *)

Import JobService.

(** Position and content of the first document with a given [job_id]: the
    one [update_one({"job_id": ...})] writes to. *)
Definition first_with_job_id (jid : string) (c : list Job) : option (nat * Job) :=
  list_find (fun j => job_id j = jid) c.

(** The stored document [get_job] finds for a caller. *)
Definition job_of (jid uid : string) (w : World) : option Job :=
  List.find (by_job_id_and_user jid uid) (jobs w).

(** The statuses no transition of the lifecycle leaves. *)
Definition terminal (s : JobStatus) : bool :=
  match s with
  | COMPLETED | FAILED | CANCELLED => true
  | PENDING | PROCESSING => false
  end.

(** The effect of one patch entry on a field: an entry that is unset or
    [None] keeps the stored value. *)
Definition written {A} (entry : field A) (old : A) : A :=
  match entry with
  | Assigned (Some v) => v
  | Assigned None => old
  | Unset => old
  end.

Definition written_opt {A} (entry : field A) (old : option A) : option A :=
  match entry with
  | Assigned (Some v) => Some v
  | Assigned None => old
  | Unset => old
  end.

(** [patched p t j j']: [j'] is [j] after the patch [p] written at time [t]. *)
Record patched (p : JobUpdate) (t : Z) (j j' : Job) : Prop := mkPatched {
  patched_id : id j' = id j;
  patched_job_id : job_id j' = job_id j;
  patched_job_type : job_type j' = job_type j;
  patched_user_id : user_id j' = user_id j;
  patched_input_files : input_files j' = input_files j;
  patched_parameters : parameters j' = parameters j;
  patched_priority : priority j' = priority j;
  patched_created_at : created_at j' = created_at j;
  patched_status : status j' = written (ju_status p) (status j);
  patched_progress : progress j' = written (ju_progress p) (progress j);
  patched_result : result j' = written_opt (ju_result p) (result j);
  patched_error_message :
    error_message j' = written_opt (ju_error_message p) (error_message j);
  patched_updated_at : updated_at j' = t;
  patched_completed_at :
    completed_at j' =
      match ju_status p with
      | Assigned (Some COMPLETED) => Some t
      | _ => completed_at j
      end
}.


(** The ids waiting in the list the service pushes to. *)
Definition queue_items (c : Redis.client) : list string :=
  match c with
  | Redis.Connected db =>
      match db !! "job_queue" with
      | Some (Redis.RList l) => l
      | _ => []
      end
  | _ => []
  end.

(** [n] successive [rpop("job_queue")] calls: the ids they return, up to
    the first call that returns nothing. *)
Fixpoint drain (n : nat) (c : Redis.client) : list string :=
  match n with
  | O => []
  | S n' =>
      match Redis.rpop "job_queue" c with
      | (Return (Some x), c') => x :: drain n' c'
      | _ => []
      end
  end.

(** [_queue_job] called for the ids one after the other. *)
Fixpoint queue_jobs (ids : list string) (w : World) : World :=
  match ids with
  | [] => w
  | jid :: ids' => queue_jobs ids' (snd (_queue_job jid w))
  end.

(** The priority the collection records for a job id. *)
Definition stored_priority (w : World) (jid : string) : option Z :=
  priority <$> List.find (by_job_id jid) (jobs w).

Module SpecQueue.

(** The order of the specification: higher priority first, and within a
    priority the earlier submission first. *)
Fixpoint enqueue (x : string * Z) (q : list (string * Z)) : list (string * Z) :=
  match q with
  | [] => [x]
  | y :: q' => if (snd y <? snd x)%Z then x :: y :: q' else y :: enqueue x q'
  end.

Definition order (pushes : list (string * Z)) : list string :=
  fst <$> fold_left (fun q x => enqueue x q) pushes [].

End SpecQueue.

(** ** Sample data *)
Module Sample.

Definition compress_request : JobCreate :=
  mkJobCreate COMPRESS_PDF "alice" ["a.pdf"] (Some ∅) 1.

Definition job_in (s : JobStatus) (p : Z) : Job :=
  mkJob "doc-1" "job-1" COMPRESS_PDF "alice" ["a.pdf"] (Some ∅) 1
        s p None None 0 0 None.

(** A backend just started, connected to an empty Redis. *)
Definition fresh_world : World := mkWorld 0 [] (Redis.Connected ∅) [].

(** A world whose collection holds one job of alice. *)
Definition world_with (j : Job) : World :=
  mkWorld 10 [j] (Redis.Connected ∅) [].

(** A collection with a job of priority 1 stored before a job of priority
    5, and an empty queue. *)
Definition low_then_high : World :=
  mkWorld 0
    [ mkJob "doc-a" "job-a" COMPRESS_PDF "alice" ["a.pdf"] (Some ∅) 1
            PENDING 0 None None 0 0 None;
      mkJob "doc-b" "job-b" MERGE_PDF "alice" ["b.pdf"; "c.pdf"] (Some ∅) 5
            PENDING 0 None None 0 0 None ]
    (Redis.Connected ∅) [].

End Sample.

(** The client reaches its server and the key of the queue does not hold a
    string. *)
Definition queue_usable (c : Redis.client) : Prop :=
  exists db, c = Redis.Connected db /\
             forall s, db !! "job_queue" <> Some (Redis.RString s).

(** ** The backend as a transition system

    The requests of the service interleave at their suspension points.  A
    server state is the world together with the [cancel_job] calls that
    have read their job and not yet written: each remembers the [job_id] and
    the status it read. *)
Record Server : Type := mkServer {
  world : World;
  suspended : list (string * JobStatus)
}.

Inductive server_step : Server -> Server -> Prop :=
  | step_create (d : JobCreate) (caller uuid_job uuid_doc : string) (s : Server) :
      server_step s
        (mkServer (snd (create_job d caller uuid_job uuid_doc (world s)))
                  (suspended s))
  | step_cancel_read (jid uid : string) (observed : JobStatus) (s : Server) :
      fst (cancel_job_read jid uid (world s)) = Return (inr observed) ->
      server_step s (mkServer (world s) ((jid, observed) :: suspended s))
  | step_cancel_write (i : nat) (jid : string) (observed : JobStatus) (s : Server) :
      suspended s !! i = Some (jid, observed) ->
      server_step s
        (mkServer (snd (cancel_job_write jid observed (world s)))
                  (base.delete i (suspended s)))
  | step_task (i : nat) (w' : World) (s : Server) :
      run_task i (world s) = Some w' ->
      server_step s (mkServer w' (suspended s))
  | step_advance (d : Z) (s : Server) :
      0 <= d ->
      server_step s (mkServer (advance d (world s)) (suspended s)).

(** The states of a server started on an empty collection. *)
Inductive reachable : Server -> Prop :=
  | reachable_start (t : Z) (r : Redis.client) :
      reachable (mkServer (mkWorld t [] r []) [])
  | reachable_step (s s' : Server) :
      reachable s -> server_step s s' -> reachable s'.

(** ** Dispatch in the worker *)
Import Worker Deployment.

(** The line a task prints when it takes a job into processing. *)
Definition is_processing_report (jid : string) (l : line) : bool :=
  match l with
  | StatusLine j s _ => bool_decide (j = jid) && bool_decide (s = "processing")
  | _ => false
  end.

(** How many times the output shows the job taken into processing. *)
Definition dispatched (jid : string) (out : list line) : nat :=
  length (List.filter (is_processing_report jid) out).

(** How many of the tasks are for the job. *)
Definition attempts (jid : string) (ts : list task) : nat :=
  length (List.filter (fun t => bool_decide (task_job t = jid)) ts).

(** The catalog as a table: the operations on one input file and the
    conversions, by name. *)
Definition one_file_operations (pdf : PDFService)
  : list (string * (string -> dict -> outcome dict)) :=
  [ ("split_pdf", split_pdf pdf); ("compress_pdf", compress_pdf pdf);
    ("extract_pages", extract_pages pdf); ("remove_pages", remove_pages pdf);
    ("rotate_pages", rotate_pages pdf); ("add_watermark", add_watermark pdf);
    ("protect_pdf", protect_pdf pdf);
    ("remove_protection", remove_protection pdf) ].

Definition conversions (conv : ConversionService)
  : list (string * (option string -> dict -> outcome dict)) :=
  [ ("pdf_to_word", pdf_to_word conv); ("word_to_pdf", word_to_pdf conv);
    ("image_to_pdf", image_to_pdf conv); ("pdf_to_image", pdf_to_image conv) ].

Definition named {A} (name : string) (table : list (string * A)) : option A :=
  snd <$> List.find (fun e => bool_decide (fst e = name)) table.

(** The call on the catalog a task stands for, when its type names an
    operation and it has the input file the operation takes. *)
Definition operation_of (services : Services) (t : task) : option (outcome dict) :=
  match t with
  | PdfTask ty files params _ =>
      if bool_decide (ty = "merge_pdf")
      then Some (merge_pdfs (pdf_service services) files params)
      else
        match named ty (one_file_operations (pdf_service services)), files with
        | Some op, f :: _ => Some (op f params)
        | _, _ => None
        end
  | ConvertTask ty file params _ =>
      (fun op => op file params)
        <$> named ty (conversions (conversion_service services))
  | OcrTask file params _ =>
      Some (process_ocr (ocr_service services) file params)
  end.

(** The status report that tells how an operation ended. *)
Definition final_report (jid : string) (o : outcome dict) : line :=
  match o with
  | Return _ => StatusLine jid "completed" 100
  | Raise _ => StatusLine jid "failed" 0
  end.

Module SampleRun.

Definition ok_result : dict := {[ "output_file" := "uploads/out.pdf" ]}.

(** A catalog whose PDF and conversion operations succeed and whose OCR
    operation raises. *)
Definition services : Services :=
  mkServices
    (mkPDFService (fun _ _ => Return ok_result) (fun _ _ => Return ok_result)
       (fun _ _ => Return ok_result) (fun _ _ => Return ok_result)
       (fun _ _ => Return ok_result) (fun _ _ => Return ok_result)
       (fun _ _ => Return ok_result) (fun _ _ => Return ok_result)
       (fun _ _ => Return ok_result))
    (mkConversionService
       (fun _ _ => Return ok_result) (fun _ _ => Return ok_result)
       (fun _ _ => Return ok_result) (fun _ _ => Return ok_result))
    (mkOCRService
       (fun _ _ => Raise (PyException "Exception"
                            "OCR engine unavailable"))).

Definition compress_request : ProcessRequest :=
  mkProcessRequest (Some "compress_pdf") ["a.pdf"] ∅ (Some "job-1").

Definition compress_task : task := PdfTask "compress_pdf" ["a.pdf"] ∅ "job-1".

Definition ocr_job_task : task := OcrTask (Some "scan.pdf") ∅ "job-1".

(** One pending job in the backend, nothing printed yet. *)
Definition pending_system : System :=
  mkSystem (Sample.world_with (Sample.job_in PENDING 0)) [].

(** A pending job whose id was queued at time 0: the document is in the
    collection, the id in [job_queue], and the [process()] coroutine that
    [_queue_job] started sleeps until time 2. *)
Definition queued : World :=
  snd (_queue_job "job-1"
         (mkWorld 0 [Sample.job_in PENDING 0] (Redis.Connected ∅) [])).

Definition after_completion_of (w : World) : World :=
  default w (run_task 0 w).

End SampleRun.


(** * Further parts of the code *)

(** ** workers/main.py: the catalog of the backend seen from the worker *)
Module WorkerCatalog.
Import Worker.

(** The job types of the backend whose value begins with [convert_]. *)
Definition is_conversion (t : JobType) : bool :=
  match t with
  | CONVERT_PDF_TO_WORD | CONVERT_WORD_TO_PDF
  | CONVERT_IMAGE_TO_PDF | CONVERT_PDF_TO_IMAGE => true
  | _ => false
  end.

(** A POST /process request for a job of the backend. *)
Definition request_for (t : JobType) (files : list string) (params : dict)
    (jid : string) : ProcessRequest :=
  mkProcessRequest (Some (JobType_value t)) files params (Some jid).

(** The task types some branch of a task compares its argument with and
    that the dispatcher hands to that task. *)
Definition completable_task_types : list string :=
  (pdf_task_types ++ ["word_to_pdf"; "image_to_pdf"; "ocr_processing"])%list.

(** The job a printed line is about. *)
Definition line_job (l : line) : string :=
  match l with
  | StatusLine j _ _ => j
  | CompletedLine j _ => j
  | FailedLine j _ => j
  end.

End WorkerCatalog.

(** ** app/services/job_service.py: what the service keeps *)
Module JobInvariants.
Import JobService.

(** Document by document, the fields set at creation are the same in [c']
    as in [c]. *)
Definition identity_kept (c c' : list Job) : Prop :=
  forall (i : nat) (j : Job), c !! i = Some j ->
    exists j', c' !! i = Some j' /\
      id j' = id j /\ job_id j' = job_id j /\ job_type j' = job_type j /\
      user_id j' = user_id j /\ input_files j' = input_files j /\
      parameters j' = parameters j /\ priority j' = priority j /\
      created_at j' = created_at j.

End JobInvariants.

(** ** app/models/file.py, app/services/file_service.py: files and share links *)
Module FileService.

(** class File *)
Record File : Type := mkFile {
  f_id : string;
  filename : string;
  original_filename : string;
  file_type : string;
  file_size : Z;
  mime_type : string;
  file_path : string;
  f_user_id : string;
  is_favorite : bool;
  tags : list string;
  metadata : dict;
  thumbnail_path : option string;
  f_created_at : Z;
  f_updated_at : Z;
  f_download_count : Z;
  is_public : bool
}.

(** class ShareLink *)
Record ShareLink : Type := mkShareLink {
  sl_id : string;
  link_id : string;
  sl_file_id : string;
  sl_user_id : string;
  expires_at : option Z;
  download_limit : option Z;
  password : option string;
  download_count : Z;
  is_active : bool;
  sl_created_at : Z
}.


(** [File.from_dict] and [ShareLink.from_dict] on a stored document.  Both
    classes extend the [MongoBaseModel] of [models/file.py], whose [id]
    field and [PyObjectId] are written as in [models/job.py]: the [_id] of
    the document goes to the same validator call. *)
Definition File_from_dict (data : File) : outcome File :=
  match validate_id (Some (f_id data)) with
  | Raise e => Raise e
  | Return _ => Return data
  end.

Definition ShareLink_from_dict (data : ShareLink) : outcome ShareLink :=
  match validate_id (Some (sl_id data)) with
  | Raise e => Raise e
  | Return _ => Return data
  end.

(** The [files] and [shared_links] collections, the paths that exist on the
    disk, and the clock. *)
Record Store : Type := mkStore {
  clock : Z;
  files : list File;
  shared_links : list ShareLink;
  disk : gset string
}.


(** The query of [get_shared_file]. *)
Definition active_link (lid : string) (l : ShareLink) : bool :=
  bool_decide (link_id l = lid) && is_active l.





(** Truth value of an optional integer and of an optional string. *)
Definition truthy_int (n : option Z) : bool :=
  match n with
  | Some n => negb (bool_decide (n = 0))
  | None => false
  end.
Definition truthy_string (s : option string) : bool :=
  match s with
  | Some s => negb (bool_decide (s = EmptyString))
  | None => false
  end.

(** The three checks of [get_shared_file] on the link object. *)
Definition expired (l : ShareLink) (t : Z) : bool :=
  match expires_at l with
  | Some e => bool_decide (e < t)
  | None => false
  end.
Definition exhausted (l : ShareLink) : bool :=
  truthy_int (download_limit l)
  && bool_decide (default 0 (download_limit l) <= download_count l).
Definition password_refused (l : ShareLink) (given : option string) : bool :=
  truthy_string (password l) && negb (bool_decide (password l = given)).

(** [{"$inc": {"download_count": 1}}] *)
Definition inc_download_count (l : ShareLink) : ShareLink :=
  mkShareLink (sl_id l) (link_id l) (sl_file_id l) (sl_user_id l)
              (expires_at l) (download_limit l) (password l)
              (download_count l + 1) (is_active l) (sl_created_at l).

(** [update_one] on the share links: the first document that matches. *)
Fixpoint update_first_link (q : ShareLink -> bool) (f : ShareLink -> ShareLink)
    (c : list ShareLink) : list ShareLink :=
  match c with
  | [] => []
  | l :: c' => if q l then f l :: c' else l :: update_first_link q f c'
  end.

(** [get_shared_file] *)
Definition get_shared_file (lid : string) (given : option string) (st : Store)
  : outcome (option File) * Store :=
  match List.find (active_link lid) (shared_links st) with
  | None => (Return None, st)
  | Some share_link_data =>
      match ShareLink_from_dict share_link_data with
      | Raise e => (Raise e, st)
      | Return share_link =>
          if expired share_link (clock st) then (Return None, st)
          else if exhausted share_link then (Return None, st)
          else if password_refused share_link given then (Return None, st)
          else
            match List.find
                    (fun f => bool_decide (f_id f = sl_file_id share_link))
                    (files st) with
            | None => (Return None, st)
            | Some file_data =>
                let st' :=
                  mkStore (clock st) (files st)
                    (update_first_link (fun l => bool_decide (link_id l = lid))
                       inc_download_count (shared_links st))
                    (disk st) in
                match File_from_dict file_data with
                | Raise e => (Raise e, st')
                | Return file => (Return (Some file), st')
                end
            end
      end
  end.


(** GET /shared/{link_id} *)
Definition shared_endpoint (lid : string) (given : option string) (st : Store)
  : outcome File * Store :=
  match get_shared_file lid given st with
  | (Raise e, st') => (Raise e, st')
  | (Return None, st') =>
      (Raise (HTTPException 404 "Shared link not found or expired"), st')
  | (Return (Some file), st') => (Return file, st')
  end.


End FileService.

(** ** app/services/file_service.py, app/core/config.py: allowed file names

    File names are strings of ASCII characters; paths are POSIX paths, as
    [os.path] reads them on the platform the service is deployed on. *)
Module Upload.

(** [settings.ALLOWED_EXTENSIONS] *)
Definition ALLOWED_EXTENSIONS : list string :=
  [ "pdf"; "doc"; "docx"; "txt"; "jpg"; "jpeg"; "png"; "gif"; "bmp"; "tiff" ].

Definition dot : Ascii.ascii := "."%char.
Definition slash : Ascii.ascii := "/"%char.

(** [p.rfind(c)] from position [i] on, [found] being the answer so far. *)
Fixpoint rfind_from (c : Ascii.ascii) (p : list Ascii.ascii) (i found : Z) : Z :=
  match p with
  | [] => found
  | x :: p' =>
      rfind_from c p' (i + 1) (if bool_decide (x = c) then i else found)
  end.

(** [p.rfind(c)]: the highest index of [c] in [p], or -1. *)
Definition rfind (c : Ascii.ascii) (p : list Ascii.ascii) : Z :=
  rfind_from c p 0 (-1).

(** [p[i:j]] for indices that are not negative. *)
Definition slice (i j : Z) (p : list Ascii.ascii) : list Ascii.ascii :=
  drop (Z.to_nat i) (take (Z.to_nat j) p).

(** [os.path.splitext(p)[1]]: the text from the last dot on, when that dot
    comes after the last slash and after a character of the last component
    that is not a dot; the empty text otherwise. *)
Definition splitext_ext (p : list Ascii.ascii) : list Ascii.ascii :=
  let sepIndex := rfind slash p in
  let dotIndex := rfind dot p in
  if bool_decide (sepIndex < dotIndex)
  then
    if existsb (fun x => negb (bool_decide (x = dot)))
               (slice (sepIndex + 1) dotIndex p)
    then drop (Z.to_nat dotIndex) p
    else []
  else [].

(** [c.lower()] on an ASCII character. *)
Definition lower_ascii (c : Ascii.ascii) : Ascii.ascii :=
  let n := Ascii.nat_of_ascii c in
  if (65 <=? n)%nat && (n <=? 90)%nat then Ascii.ascii_of_nat (n + 32) else c.

(** [s.lstrip('.')] *)
Fixpoint lstrip_dots (s : list Ascii.ascii) : list Ascii.ascii :=
  match s with
  | x :: s' => if bool_decide (x = dot) then lstrip_dots s' else s
  | [] => []
  end.

(** The [file_ext] of [is_allowed_file] and of [upload_file]. *)
Definition file_ext (filename : string) : string :=
  string_of_list_ascii
    (lstrip_dots (lower_ascii <$> splitext_ext (list_ascii_of_string filename))).

(** [is_allowed_file] *)
Definition is_allowed_file (filename : string) : bool :=
  if bool_decide (filename = EmptyString) then false
  else bool_decide (file_ext filename ∈ ALLOWED_EXTENSIONS).

(** The check POST /upload makes before anything is stored. *)
Definition upload_check (filename : string) : outcome unit :=
  if negb (is_allowed_file filename)
  then Raise (HTTPException 400 "File type not allowed")
  else Return tt.

End Upload.
(** * Properties *)

(** The computations of the service down to the collection, the client and
    the task list. *)
Ltac unfold_M :=
  unfold bind, utcnow, lift_outcome, insert_one, find_one, update_one,
    lift_redis, raise, ret.

(** ** The collection: which document a query touches *)

Lemma by_job_id_true jid j : by_job_id jid j = true <-> job_id j = jid.
Proof. unfold by_job_id. rewrite bool_decide_eq_true. reflexivity. Qed.

Lemma by_job_id_and_user_true jid uid j :
  by_job_id_and_user jid uid j = true <-> job_id j = jid /\ user_id j = uid.
Proof.
  unfold by_job_id_and_user.
  rewrite andb_true_iff, !bool_decide_eq_true. reflexivity.
Qed.

(** [update_one] on the collection, by cases on the first match. *)
Lemma update_first_by_job_id (jid : string) (f : Job -> Job) (c : list Job) :
  update_first (by_job_id jid) f c =
    match first_with_job_id jid c with
    | Some (i, j) =>
        (mkUpdateResult 1 (if decide (f j = j) then 0 else 1), <[i := f j]> c)
    | None => (mkUpdateResult 0 0, c)
    end.
Proof.
  unfold first_with_job_id.
  induction c as [|a c IH]; simpl; [reflexivity|].
  unfold by_job_id at 1.
  destruct (decide (job_id a = jid)) as [Heq|Hne].
  - rewrite bool_decide_eq_true_2 by exact Heq. reflexivity.
  - rewrite bool_decide_eq_false_2 by exact Hne.
    rewrite IH.
    destruct (list_find (fun j => job_id j = jid) c) as [[i j]|]; reflexivity.
Qed.

Lemma find_by_job_id (jid : string) (c : list Job) :
  List.find (by_job_id jid) c = snd <$> first_with_job_id jid c.
Proof.
  unfold first_with_job_id.
  induction c as [|a c IH]; simpl; [reflexivity|].
  unfold by_job_id at 1.
  destruct (decide (job_id a = jid)) as [Heq|Hne].
  - rewrite bool_decide_eq_true_2 by exact Heq. reflexivity.
  - rewrite bool_decide_eq_false_2 by exact Hne.
    rewrite IH.
    destruct (list_find (fun j => job_id j = jid) c) as [[i j]|]; reflexivity.
Qed.

Lemma first_with_job_id_Some jid c i j :
  first_with_job_id jid c = Some (i, j) ->
  c !! i = Some j /\ job_id j = jid.
Proof.
  unfold first_with_job_id. intros H.
  apply list_find_Some in H. tauto.
Qed.

(** ** [update_job]: what a patch writes *)

Lemma apply_set_patched (p : JobUpdate) (t : Z) (j : Job) :
  patched p t j (apply_set (update_data_of p t t) j).
Proof.
  destruct p as [ps pp pr pe].
  split; simpl; try reflexivity.
  - destruct ps as [|[v|]]; reflexivity.
  - destruct pp as [|[v|]]; reflexivity.
  - destruct pr as [|[v|]]; reflexivity.
  - destruct pe as [|[v|]]; reflexivity.
  - destruct ps as [|[[]|]]; reflexivity.
Qed.

(** The world after [update_job]. *)
Lemma update_job_world (jid : string) (p : JobUpdate) (w : World) :
  snd (update_job jid p w) =
    with_jobs
      (match first_with_job_id jid (jobs w) with
       | Some (i, j) =>
           <[i := apply_set (update_data_of p (now w) (now w)) j]> (jobs w)
       | None => jobs w
       end) w.
Proof.
  unfold update_job. unfold_M. simpl.
  rewrite update_first_by_job_id.
  destruct (first_with_job_id jid (jobs w)) as [[i j]|]; simpl.
  - destruct (bool_decide _); [|reflexivity].
    destruct (List.find _ _); reflexivity.
  - destruct w; reflexivity.
Qed.

Lemma update_job_jobs (jid : string) (p : JobUpdate) (w : World) :
  jobs (snd (update_job jid p w)) =
    match first_with_job_id jid (jobs w) with
    | Some (i, j) =>
        <[i := apply_set (update_data_of p (now w) (now w)) j]> (jobs w)
    | None => jobs w
    end.
Proof. rewrite update_job_world. reflexivity. Qed.

(** C9. [update_job] leaves the clock, the queue and the sleeping tasks
    alone and writes to one document at most, the first one with the given
    [job_id]. In that document a patch entry that is set and not [None]
    replaces the field, [updated_at] becomes the current time, [completed_at]
    becomes the current time exactly when the patch sets the status to
    completed, and every other field keeps its value; an entry that is unset
    or [None] changes nothing, so it cannot clear a stored result, error
    message or progress. *)
Theorem update_job_frame (jid : string) (p : JobUpdate) (w : World) :
  let w' := snd (update_job jid p w) in
  now w' = now w /\ redis w' = redis w /\ tasks w' = tasks w /\
  match first_with_job_id jid (jobs w) with
  | Some (i, j) =>
      exists j', jobs w' = <[i := j']> (jobs w) /\ patched p (now w) j j'
  | None => jobs w' = jobs w
  end.
Proof.
  cbv zeta. rewrite update_job_world.
  repeat split.
  destruct (first_with_job_id jid (jobs w)) as [[i j]|]; simpl; [|reflexivity].
  eexists. split; [reflexivity|]. apply apply_set_patched.
Qed.

(** ** [get_job], [cancel_job], [create_job]: what the object step does *)

Lemma get_job_found (jid uid : string) (w : World) (j : Job) :
  job_of jid uid w = Some j ->
  get_job jid uid w = (Raise validator_call_error, w).
Proof.
  intros Hj. unfold get_job. unfold_M. unfold job_of in Hj.
  rewrite Hj. reflexivity.
Qed.

Lemma get_job_absent (jid uid : string) (w : World) :
  job_of jid uid w = None ->
  get_job jid uid w = (Return None, w).
Proof.
  intros Hj. unfold get_job. unfold_M. unfold job_of in Hj.
  rewrite Hj. reflexivity.
Qed.

Lemma cancel_job_read_found (jid uid : string) (w : World) (j : Job) :
  job_of jid uid w = Some j ->
  cancel_job_read jid uid w = (Raise validator_call_error, w).
Proof.
  intros Hj. unfold cancel_job_read, bind.
  rewrite (get_job_found jid uid w j Hj). reflexivity.
Qed.

Lemma cancel_job_read_none (jid uid : string) (w : World) :
  job_of jid uid w = None ->
  cancel_job_read jid uid w = (Return (inl false), w).
Proof.
  intros Hj. unfold cancel_job_read, bind.
  rewrite (get_job_absent jid uid w Hj). reflexivity.
Qed.

Lemma cancel_job_read_world (jid uid : string) (w : World) :
  snd (cancel_job_read jid uid w) = w.
Proof.
  destruct (job_of jid uid w) as [j|] eqn:Hj.
  - rewrite (cancel_job_read_found jid uid w j Hj). reflexivity.
  - rewrite (cancel_job_read_none jid uid w Hj). reflexivity.
Qed.

(** A cancel call on a job the caller has raises before the status is
    looked at, and writes nothing. *)
Lemma cancel_job_found (jid uid : string) (w : World) (j : Job) :
  job_of jid uid w = Some j ->
  cancel_job jid uid w = (Raise validator_call_error, w).
Proof.
  intros Hj. unfold cancel_job, bind.
  rewrite (cancel_job_read_found jid uid w j Hj). reflexivity.
Qed.

Lemma cancel_job_absent (jid uid : string) (w : World) :
  job_of jid uid w = None ->
  cancel_job jid uid w = (Return false, w).
Proof.
  intros Hj. unfold cancel_job, bind.
  rewrite (cancel_job_read_none jid uid w Hj). reflexivity.
Qed.

Lemma cancel_job_world (jid uid : string) (w : World) :
  snd (cancel_job jid uid w) = w.
Proof.
  destruct (job_of jid uid w) as [j|] eqn:Hj.
  - rewrite (cancel_job_found jid uid w j Hj). reflexivity.
  - rewrite (cancel_job_absent jid uid w Hj). reflexivity.
Qed.

(** [create_job] stops at the constructor call, before the insertion. *)
Lemma create_job_raises (d : JobCreate) (caller uj ud : string) (w : World) :
  create_job d caller uj ud w = (Raise validator_call_error, w).
Proof. reflexivity. Qed.

(** ** Validation of the request body *)

Lemma JobType_of_value_value (t : JobType) :
  JobType_of_value (JobType_value t) = Some t.
Proof. destruct t; reflexivity. Qed.

(** A job type validates exactly when it is the value of a member of the
    catalog. *)
Lemma validate_job_type_Some (v : json) (t : JobType) :
  validate_job_type v = Some t <-> v = JStr (JobType_value t).
Proof.
  split.
  - destruct v; simpl; try discriminate.
    unfold JobType_of_value. intros H.
    apply find_some in H as [_ H]. apply String.eqb_eq in H. now subst.
  - intros ->. simpl. apply JobType_of_value_value.
Qed.

Lemma validate_str_Some (v : json) (s : string) :
  validate_str v = Some s <-> v = JStr s.
Proof.
  destruct v; simpl; split; intros H; try discriminate; congruence.
Qed.

(** The input files validate exactly when they are an array of strings. *)
Lemma validate_input_files_Some (v : json) (files : list string) :
  validate_input_files v = Some files <-> v = JArr (JStr <$> files).
Proof.
  destruct v as [| | | |items|]; simpl; try (split; discriminate).
  rewrite mapM_Some. split.
  - intros H. f_equal.
    induction H as [|x y l k Hxy _ IH]; simpl; [reflexivity|].
    apply validate_str_Some in Hxy. now subst.
  - intros [= ->].
    induction files as [|f files IH]; simpl; constructor; auto.
Qed.

(** C3, the code on every request.  POST /jobs validates the body: a job
    type that is not a string of the catalog, or input files that are not
    an array of strings, are rejected with a validation error and nothing
    changes.  For every body that validates, the constructor call on the
    job data raises the [TypeError] of the identifier validator: the call
    does not return a job, and the collection, the queue and the sleeping
    tasks are what they were; no job is created, pushed or scheduled. *)
Theorem submit_stores_nothing (body : JobBody) (caller uuid_job uuid_doc : string)
    (w : World) :
  match validate_job_type (body_job_type body),
        validate_input_files (body_input_files body) with
  | Some t, Some files =>
      validate_JobCreate body
        = Return (mkJobCreate t (body_user_id body) files
                    (body_parameters body) (body_priority body)) /\
      Api.create_job body caller uuid_job uuid_doc w
        = (Raise validator_call_error, w)
  | _, _ =>
      exists f,
        Api.create_job body caller uuid_job uuid_doc w
          = (Raise (RequestValidationError f), w)
  end.
Proof.
  unfold Api.create_job, validate_JobCreate.
  destruct (validate_job_type (body_job_type body)) as [t|];
    [|eexists; reflexivity].
  destruct (validate_input_files (body_input_files body)) as [files|];
    [|eexists; reflexivity].
  split; reflexivity.
Qed.

(** C4. A cancel call on a job of the caller that is processing never
    moves it to cancelled: the call raises when it makes an object of the
    document it found, before it looks at the status, and the world is left
    as it was.  The code keeps no lease; the statement is about every
    processing job, so also about one a worker holds with a live lease, and
    no cancellation succeeds, with or without a lease. *)
Theorem cancel_job_processing_never_cancels (jid uid : string) (w : World)
    (j : Job) :
  job_of jid uid w = Some j ->
  status j = PROCESSING ->
  cancel_job jid uid w = (Raise validator_call_error, w) /\
  fst (cancel_job jid uid w) <> Return true /\
  (status <$> job_of jid uid (snd (cancel_job jid uid w))) = Some PROCESSING.
Proof.
  intros Hj Hs. rewrite (cancel_job_found jid uid w j Hj). simpl.
  split; [reflexivity|]. split; [discriminate|].
  rewrite Hj. simpl. now rewrite Hs.
Qed.

Lemma cancel_job_processing_never_cancels_witness :
  let w := Sample.world_with (Sample.job_in PROCESSING 0) in
  job_of "job-1" "alice" w = Some (Sample.job_in PROCESSING 0) /\
  status (Sample.job_in PROCESSING 0) = PROCESSING /\
  cancel_job "job-1" "alice" w = (Raise validator_call_error, w) /\
  fst (cancel_job "job-1" "alice" w) <> Return true /\
  (status <$> job_of "job-1" "alice" (snd (cancel_job "job-1" "alice" w)))
    = Some PROCESSING.
Proof.
  cbv zeta. split; [reflexivity|]. split; [reflexivity|].
  exact (cancel_job_processing_never_cancels "job-1" "alice"
           (Sample.world_with (Sample.job_in PROCESSING 0))
           (Sample.job_in PROCESSING 0) eq_refl eq_refl).
Defined.

(** C8, the code at the failing input.  A job of alice is stored as
    cancelled, as completed or as failed.  A cancel call on it does not
    return false: it raises the [TypeError] of the identifier validator in
    [get_job], before the test on the status.  The stored state is
    unchanged. *)
Theorem cancel_job_terminal_raises :
  let cancelled := Sample.world_with (Sample.job_in CANCELLED 0) in
  let completed := Sample.world_with (Sample.job_in COMPLETED 100) in
  let failed := Sample.world_with (Sample.job_in FAILED 0) in
  (status <$> job_of "job-1" "alice" cancelled) = Some CANCELLED /\
  cancel_job "job-1" "alice" cancelled = (Raise validator_call_error, cancelled) /\
  cancel_job "job-1" "alice" completed = (Raise validator_call_error, completed) /\
  cancel_job "job-1" "alice" failed = (Raise validator_call_error, failed) /\
  fst (cancel_job "job-1" "alice" cancelled) <> Return false.
Proof.
  cbv zeta. repeat split; try reflexivity. discriminate.
Qed.


(** ** The simulated completion *)

Lemma process_jobs (jid : string) (w : World) :
  jobs (snd (process jid w)) = jobs (snd (update_job jid completed_update w)).
Proof.
  unfold process, bind at 1, find_one. simpl.
  rewrite find_by_job_id.
  destruct (first_with_job_id jid (jobs w)) as [[i j]|] eqn:E; simpl.
  - unfold bind, ret.
    destruct (update_job jid completed_update w) as [[r|e] w']; reflexivity.
  - rewrite update_job_jobs, E. reflexivity.
Qed.


(** ** Progress *)




(** ** The queue *)

Lemma queue_items_insert (db : gmap string Redis.rvalue) (l : list string) :
  queue_items (Redis.Connected (<["job_queue" := Redis.RList l]> db)) = l.
Proof. unfold queue_items. now rewrite lookup_insert_eq. Qed.

Lemma queue_usable_insert (db : gmap string Redis.rvalue) (l : list string) :
  queue_usable (Redis.Connected (<["job_queue" := Redis.RList l]> db)).
Proof.
  eexists. split; [reflexivity|]. intros s.
  rewrite lookup_insert_eq. discriminate.
Qed.

(** [_queue_job] on a usable queue puts the id at the head and touches
    neither the collection nor the ids that wait. *)
Lemma queue_job_queue (jid : string) (w : World) :
  queue_usable (redis w) ->
  let w' := snd (_queue_job jid w) in
  queue_usable (redis w') /\
  queue_items (redis w') = jid :: queue_items (redis w) /\
  jobs w' = jobs w.
Proof.
  intros (db & Hdb & Hns). cbv zeta.
  unfold _queue_job, _simulate_job_processing, create_task. unfold_M.
  rewrite Hdb. unfold Redis.lpush, queue_items. simpl.
  destruct (db !! "job_queue") as [[s|l]|] eqn:Hq; simpl.
  - exfalso. exact (Hns s eq_refl).
  - split; [apply queue_usable_insert|]. now rewrite lookup_insert_eq.
  - split; [apply queue_usable_insert|]. now rewrite lookup_insert_eq.
Qed.

Lemma queue_jobs_queue (ids : list string) (w : World) :
  queue_usable (redis w) ->
  queue_usable (redis (queue_jobs ids w)) /\
  queue_items (redis (queue_jobs ids w))
    = (rev ids ++ queue_items (redis w))%list /\
  jobs (queue_jobs ids w) = jobs w.
Proof.
  revert w. induction ids as [|jid ids IH]; intros w Hu; simpl.
  - split; [exact Hu|]. split; reflexivity.
  - destruct (queue_job_queue jid w Hu) as (Hu' & Hq' & Hj').
    destruct (IH _ Hu') as (Hu'' & Hq'' & Hj'').
    split; [exact Hu''|]. split; [|congruence].
    rewrite Hq'', Hq'. rewrite <- app_assoc. reflexivity.
Qed.

(** One [rpop] on a usable queue takes the item at the tail. *)
Lemma rpop_tail (c : Redis.client) (l : list string) (x : string) :
  queue_usable c -> queue_items c = (l ++ [x])%list ->
  exists c', Redis.rpop "job_queue" c = (Return (Some x), c') /\
             queue_usable c' /\ queue_items c' = l.
Proof.
  intros (db & -> & Hns) Hq. unfold queue_items in Hq. unfold Redis.rpop.
  destruct (db !! "job_queue") as [[s|l0]|] eqn:Hk.
  - exfalso. exact (Hns s eq_refl).
  - subst l0. rewrite last_snoc, removelast_last.
    destruct l as [|y l].
    + eexists. split; [reflexivity|]. split.
      * eexists. split; [reflexivity|]. intros s.
        rewrite lookup_delete_eq. discriminate.
      * unfold queue_items. now rewrite lookup_delete_eq.
    + eexists. split; [reflexivity|]. split.
      * apply queue_usable_insert.
      * apply queue_items_insert.
  - destruct l; discriminate Hq.
Qed.

(** Draining a usable queue returns its items from the tail to the head. *)
Lemma drain_all (c : Redis.client) :
  queue_usable c ->
  drain (length (queue_items c)) c = rev (queue_items c).
Proof.
  remember (queue_items c) as l eqn:Hl.
  revert c Hl. induction l as [|x l IH] using rev_ind; intros c Hl Hu.
  - reflexivity.
  - rewrite length_app, Nat.add_comm. simpl.
    destruct (rpop_tail c l x Hu (eq_sym Hl)) as (c' & Hpop & Hu' & Hq').
    rewrite Hpop. rewrite rev_app_distr. simpl. f_equal.
    apply IH; [now symmetry | exact Hu'].
Qed.

(** C7 (as amended). The queue is first in, first out and nothing else.
    [_queue_job] takes the job id alone and pushes it on the head of
    [job_queue]; [rpop] takes from the tail.  When any ids are queued on an
    empty usable queue, whatever the collection holds and so whatever the
    priorities of their jobs are, successive pops return the ids in the
    order they were queued, and the collection is not read or changed. *)
Theorem queue_is_fifo (ids : list string) (w : World) :
  queue_usable (redis w) ->
  queue_items (redis w) = [] ->
  drain (length ids) (redis (queue_jobs ids w)) = ids /\
  jobs (queue_jobs ids w) = jobs w.
Proof.
  intros Hu He.
  destruct (queue_jobs_queue ids w Hu) as (Hu' & Hq' & Hj').
  split; [|exact Hj'].
  rewrite He, app_nil_r in Hq'.
  assert (Hlen : length ids = length (queue_items (redis (queue_jobs ids w)))).
  { rewrite Hq', length_rev. reflexivity. }
  rewrite Hlen, (drain_all _ Hu'), Hq'. apply rev_involutive.
Qed.

Lemma queue_is_fifo_witness :
  queue_usable (redis Sample.low_then_high) /\
  queue_items (redis Sample.low_then_high) = [] /\
  drain 2 (redis (queue_jobs ["job-a"; "job-b"] Sample.low_then_high))
    = ["job-a"; "job-b"] /\
  jobs (queue_jobs ["job-a"; "job-b"] Sample.low_then_high)
    = jobs Sample.low_then_high.
Proof.
  assert (Hu : queue_usable (redis Sample.low_then_high)).
  { eexists. split; [reflexivity|]. intros s. rewrite lookup_empty. discriminate. }
  split; [exact Hu|]. split; [reflexivity|].
  exact (queue_is_fifo ["job-a"; "job-b"] Sample.low_then_high Hu eq_refl).
Defined.

(** C7, the statement of the specification, at a concrete input: the
    collection holds job-a with priority 1 and job-b with priority 5, and
    their ids are queued in that order.  The order of the specification
    serves job-b first; the queue of the code returns job-a first. *)
Lemma queue_ignores_priority :
  let w := queue_jobs ["job-a"; "job-b"] Sample.low_then_high in
  stored_priority w "job-a" = Some 1 /\
  stored_priority w "job-b" = Some 5 /\
  SpecQueue.order [("job-a", 1); ("job-b", 5)] = ["job-b"; "job-a"] /\
  drain 2 (redis w) = ["job-a"; "job-b"] /\
  drain 2 (redis w) <> SpecQueue.order [("job-a", 1); ("job-b", 5)].
Proof.
  cbv zeta. repeat split; try (vm_compute; reflexivity).
  vm_compute. discriminate.
Qed.

(** [_remove_from_queue] deletes a key that is not the queue: the ids that
    wait in [job_queue] stay there. *)
Lemma remove_from_queue_keeps_queue (jid : string) (w : World) :
  queue_items (redis (snd (_remove_from_queue jid w))) = queue_items (redis w).
Proof.
  unfold _remove_from_queue. unfold_M. unfold Redis.delete, queue_items.
  destruct (redis w) as [|db|e]; simpl; try reflexivity.
  destruct (db !! ("job:" ++ jid)) eqn:Hk; simpl; [|reflexivity].
  rewrite lookup_delete_ne; [reflexivity|].
  destruct jid; discriminate.
Qed.

(** ** Dispatch in the worker *)

Lemma interleaving_Permutation {A} (ls : list (list A)) (out : list A) :
  interleaving ls out -> Permutation out (concat ls).
Proof.
  induction 1 as [ls Hnil|ls1 ls2 x l out _ IH].
  - induction Hnil as [|l ls -> _ IH]; simpl; [constructor | exact IH].
  - rewrite concat_app in *. simpl in *.
    rewrite IH. apply Permutation_middle.
Qed.

Lemma interleaving_nils {A} (n : nat) :
  interleaving (replicate n (@nil A)) [].
Proof. constructor. apply Forall_replicate. reflexivity. Qed.

(** Running the tasks one after the other is one of the interleavings. *)
Lemma interleaving_concat {A} (ls : list (list A)) :
  interleaving ls (concat ls).
Proof.
  assert (G : forall (done : nat) (ls : list (list A)),
             interleaving (replicate done [] ++ ls) (concat ls)).
  { intros done ls0. revert done.
    induction ls0 as [|l ls0 IH]; intros done; simpl.
    - rewrite app_nil_r. apply interleaving_nils.
    - induction l as [|x l IHl]; simpl.
      + change (replicate done [] ++ [] :: ls0)%list
          with (replicate done [] ++ replicate 1 [] ++ ls0)%list.
        rewrite app_assoc, <- replicate_add. apply IH.
      + apply interleaving_step. exact IHl. }
  exact (G 0%nat ls).
Qed.

Lemma filter_length_Permutation {A} (f : A -> bool) (l l' : list A) :
  Permutation l l' -> length (List.filter f l) = length (List.filter f l').
Proof.
  induction 1 as [|x l l' _ IH|x y l|l l' l'' _ IH1 _ IH2]; simpl.
  - reflexivity.
  - destruct (f x); simpl; congruence.
  - destruct (f x), (f y); reflexivity.
  - congruence.
Qed.

Lemma dispatched_app (jid : string) (a b : list line) :
  dispatched jid (a ++ b) = (dispatched jid a + dispatched jid b)%nat.
Proof. unfold dispatched. now rewrite List.filter_app, length_app. Qed.

Lemma dispatched_update_other (jid j st : string) (p : Z)
    (r : option dict) (e : option string) :
  st <> "processing" -> dispatched jid (update_job_status j st p r e) = 0%nat.
Proof.
  intros Hst. unfold dispatched, update_job_status. simpl.
  rewrite (bool_decide_eq_false_2 (st = "processing")) by exact Hst.
  rewrite andb_false_r.
  destruct (bool_decide (st = "completed") && truthy_dict r); [reflexivity|].
  destruct (bool_decide (st = "failed") && truthy_str e); reflexivity.
Qed.

(** A task prints exactly one processing report, for its own job, whatever
    its operation does. *)
Lemma run_reporting_dispatched (jid j : string) (operation : outcome dict) :
  dispatched jid (fst (run_reporting j operation))
    = if bool_decide (j = jid) then 1%nat else 0%nat.
Proof.
  unfold run_reporting.
  destruct operation as [res|e]; cbn [fst]; rewrite dispatched_app.
  - rewrite (dispatched_update_other jid j "completed") by discriminate.
    unfold dispatched. simpl. destruct (bool_decide (j = jid)); reflexivity.
  - rewrite (dispatched_update_other jid j "failed") by discriminate.
    unfold dispatched. simpl. destruct (bool_decide (j = jid)); reflexivity.
Qed.

Lemma execute_dispatched (services : Services) (jid : string) (t : task) :
  dispatched jid (fst (execute services t))
    = if bool_decide (task_job t = jid) then 1%nat else 0%nat.
Proof. destruct t; simpl; apply run_reporting_dispatched. Qed.

Lemma dispatched_concat (services : Services) (jid : string) (ts : list task) :
  dispatched jid (concat ((fun t => fst (execute services t)) <$> ts))
    = attempts jid ts.
Proof.
  induction ts as [|t ts IH]; [reflexivity|].
  rewrite fmap_cons.
  change (concat (?l :: ?ls)) with (l ++ concat ls)%list.
  rewrite dispatched_app, IH, execute_dispatched.
  unfold attempts. simpl.
  destruct (bool_decide (task_job t = jid)); reflexivity.
Qed.

(** A task whose type names an operation of the catalog runs that
    operation inside the reporting frame. *)
Lemma execute_operation (services : Services) (t : task) (op : outcome dict) :
  operation_of services t = Some op ->
  execute services t = run_reporting (task_job t) op.
Proof.
  destruct t as [ty files params j | ty file params j | file params j];
    simpl; unfold process_pdf_task, convert_file_task, ocr_task.
  - destruct (decide (ty = "merge_pdf")) as [->|Hne].
    + intros [= <-]. reflexivity.
    + rewrite (bool_decide_eq_false_2 _ Hne).
      unfold named, one_file_operations. simpl.
      repeat (case_bool_decide;
              [subst ty; simpl; destruct files as [|f files];
               [discriminate | intros [= <-]; reflexivity] |]).
      discriminate.
  - unfold named, conversions. simpl.
    repeat (case_bool_decide;
            [subst ty; simpl; intros [= <-]; reflexivity |]).
    discriminate.
  - intros [= <-]. reflexivity.
Qed.

Lemma run_reporting_result (j : string) (op : outcome dict) :
  snd (run_reporting j op) = op /\
  final_report j op ∈ fst (run_reporting j op).
Proof.
  destruct op as [r|e]; simpl; (split; [reflexivity|]).
  - unfold update_job_status. simpl. right. left.
  - unfold update_job_status. simpl. right. left.
Qed.

(** C1 (as amended). The worker has no acquire step: every task takes its
    job into processing and runs its operation, whatever the state of the
    job and whatever the other tasks do.  In any interleaving of the
    outputs of any tasks, the number of processing reports for a job equals
    the number of tasks dispatched for it; and every task whose type names
    an operation of the catalog returns or raises what that operation
    returns or raises on the task's input, and its completed or failed
    report is in the output. *)
Theorem every_dispatch_runs (services : Services) (ts : list task)
    (out : list line) (jid : string) :
  interleaving ((fun t => fst (execute services t)) <$> ts) out ->
  dispatched jid out = attempts jid ts /\
  (forall t op, t ∈ ts -> operation_of services t = Some op ->
     snd (execute services t) = op /\
     final_report (task_job t) op ∈ out).
Proof.
  intros H. apply interleaving_Permutation in H. split.
  - unfold dispatched at 1.
    rewrite (filter_length_Permutation _ _ _ H).
    apply dispatched_concat.
  - intros t op Ht Hop.
    pose proof (execute_operation services t op Hop) as He.
    destruct (run_reporting_result (task_job t) op) as [Hr Hin].
    rewrite He. split; [exact Hr|].
    rewrite H. apply list_elem_of_In, in_concat.
    exists (fst (execute services t)). split.
    + apply list_elem_of_In, list_elem_of_fmap. exists t. split; [reflexivity | exact Ht].
    + rewrite He. now apply list_elem_of_In.
Qed.

Lemma every_dispatch_runs_witness :
  let ts := [SampleRun.compress_task; SampleRun.compress_task] in
  let out := concat ((fun t => fst (execute SampleRun.services t)) <$> ts) in
  interleaving ((fun t => fst (execute SampleRun.services t)) <$> ts) out /\
  dispatched "job-1" out = attempts "job-1" ts /\
  (forall t op, t ∈ ts -> operation_of SampleRun.services t = Some op ->
     snd (execute SampleRun.services t) = op /\
     final_report (task_job t) op ∈ out).
Proof.
  cbv zeta.
  assert (H : interleaving
                ((fun t => fst (execute SampleRun.services t)) <$>
                   [SampleRun.compress_task; SampleRun.compress_task])
                (concat ((fun t => fst (execute SampleRun.services t)) <$>
                   [SampleRun.compress_task; SampleRun.compress_task])))
    by apply interleaving_concat.
  split; [exact H|].
  exact (every_dispatch_runs SampleRun.services
           [SampleRun.compress_task; SampleRun.compress_task] _ "job-1" H).
Defined.

(** C1, the statement of the specification, at a concrete input: one
    pending job, and the same request posted twice to the dispatcher.  Both
    requests are accepted, both tasks take the job into processing and
    both run the operation to completion; the stored job is still pending. *)
Lemma two_dispatches_both_run :
  let s := SampleRun.pending_system in
  let s' := worker_executes SampleRun.services SampleRun.compress_task
              (worker_executes SampleRun.services SampleRun.compress_task s) in
  process_file SampleRun.compress_request = inr SampleRun.compress_task /\
  operation_of SampleRun.services SampleRun.compress_task
    = Some (compress_pdf (pdf_service SampleRun.services) "a.pdf" ∅) /\
  (status <$> job_of "job-1" "alice" (backend s)) = Some PENDING /\
  (status <$> job_of "job-1" "alice" (backend s')) = Some PENDING /\
  dispatched "job-1" (worker_stdout s') = 2%nat /\
  worker_stdout s' =
    [ StatusLine "job-1" "processing" 0;
      StatusLine "job-1" "completed" 100;
      CompletedLine "job-1" SampleRun.ok_result;
      StatusLine "job-1" "processing" 0;
      StatusLine "job-1" "completed" 100;
      CompletedLine "job-1" SampleRun.ok_result ].
Proof. cbv zeta. repeat split; vm_compute; reflexivity. Qed.

(** What a task whose operation raises does: it prints the processing
    report, the failed report with progress 0 and, when the message is not
    empty, the message; it raises the exception again; the backend is not
    touched. *)
Lemma failing_task_reports (services : Services) (s : System)
    (file : option string) (params : dict) (jid : string) (e : exn) :
  process_ocr (ocr_service services) file params = Raise e ->
  snd (execute services (OcrTask file params jid)) = Raise e /\
  worker_executes services (OcrTask file params jid) s =
    mkSystem (backend s)
      (worker_stdout s ++
         StatusLine jid "processing" 0 :: StatusLine jid "failed" 0 ::
         (if bool_decide (str e = EmptyString) then [] else [FailedLine jid (str e)]))%list.
Proof.
  intros H. unfold worker_executes. simpl.
  unfold ocr_task, run_reporting. rewrite H.
  split; [reflexivity|].
  unfold update_job_status, truthy_str. cbn [fst].
  destruct (bool_decide (str e = EmptyString)); reflexivity.
Qed.

(** C6, the code at the failing input. The OCR operation raises for a job
    that is stored as pending. The task prints the failed status and the
    message and raises again; the stored job keeps its status and has no
    error message. *)
Theorem failed_task_leaves_job_untouched :
  let s := SampleRun.pending_system in
  let s' := worker_executes SampleRun.services SampleRun.ocr_job_task s in
  process_file (mkProcessRequest (Some "ocr_processing") ["scan.pdf"] ∅
                  (Some "job-1")) = inr SampleRun.ocr_job_task /\
  snd (execute SampleRun.services SampleRun.ocr_job_task)
    = Raise (PyException "Exception" "OCR engine unavailable") /\
  worker_stdout s' =
    [ StatusLine "job-1" "processing" 0;
      StatusLine "job-1" "failed" 0;
      FailedLine "job-1" "OCR engine unavailable" ] /\
  backend s' = backend s /\
  (status <$> job_of "job-1" "alice" (backend s')) = Some PENDING /\
  (error_message <$> job_of "job-1" "alice" (backend s')) = Some None.
Proof. cbv zeta. repeat split; vm_compute; reflexivity. Qed.

(** * Further properties *)

(** ** The worker: routing of task types *)

Import WorkerCatalog.

Lemma prefix_split (p s : string) :
  String.prefix p s = true -> exists rest, s = (p ++ rest)%string.
Proof.
  revert s. induction p as [|a p IH]; intros s H.
  - exists s. reflexivity.
  - destruct s as [|b s]; [discriminate H|]. simpl in H.
    destruct (Ascii.ascii_dec a b) as [->|Hne]; [|discriminate H].
    destruct (IH s H) as [rest ->]. exists rest. reflexivity.
Qed.

(** X1. Every job type of the backend catalog is accepted by the dispatcher
    of the worker when the job id is not empty: the four conversions go to
    [convert_file_task], OCR to [ocr_task] and the others to
    [process_pdf_task]. *)
Theorem catalog_is_dispatched (t : JobType) (files : list string)
    (params : dict) (jid : string) :
  jid <> EmptyString ->
  process_file (request_for t files params jid) =
    inr (match t with
         | CONVERT_PDF_TO_WORD | CONVERT_WORD_TO_PDF
         | CONVERT_IMAGE_TO_PDF | CONVERT_PDF_TO_IMAGE =>
             ConvertTask (JobType_value t) (head files) params jid
         | OCR_PROCESSING => OcrTask (head files) params jid
         | _ => PdfTask (JobType_value t) files params jid
         end).
Proof.
  intros Hjid. unfold process_file, request_for. cbn [req_task_type req_job_id].
  rewrite (bool_decide_eq_false_2 (jid = EmptyString)) by exact Hjid.
  destruct t; reflexivity.
Qed.

Lemma catalog_is_dispatched_witness :
  "job-1" <> EmptyString /\
  process_file (request_for OCR_PROCESSING ["scan.pdf"] ∅ "job-1")
    = inr (OcrTask (Some "scan.pdf") ∅ "job-1").
Proof.
  split; [discriminate|].
  apply (catalog_is_dispatched OCR_PROCESSING ["scan.pdf"] ∅ "job-1").
  discriminate.
Defined.

(** X2. The conversion job types of the backend never complete in the
    worker: their values begin with [convert_], so the dispatcher hands
    them to [convert_file_task], whose branches compare with the names
    without that prefix; whatever the services do, the task reports failed
    and raises the unknown-type error. *)
Theorem catalog_conversions_fail (services : Services) (t : JobType)
    (files : list string) (params : dict) (jid : string) :
  is_conversion t = true ->
  jid <> EmptyString ->
  exists task,
    process_file (request_for t files params jid) = inr task /\
    execute services task =
      ([ StatusLine jid "processing" 0;
         StatusLine jid "failed" 0;
         FailedLine jid ("Unknown conversion type: " ++ JobType_value t) ],
       Raise (PyException "ValueError"
                ("Unknown conversion type: " ++ JobType_value t))).
Proof.
  intros Hc Hjid. eexists. split.
  - unfold process_file, request_for. cbn [req_task_type req_job_id].
    rewrite (bool_decide_eq_false_2 (jid = EmptyString)) by exact Hjid.
    destruct t; try discriminate Hc; reflexivity.
  - destruct t; try discriminate Hc; reflexivity.
Qed.

Lemma catalog_conversions_fail_witness :
  is_conversion CONVERT_PDF_TO_WORD = true /\
  "job-1" <> EmptyString /\
  exists task,
    process_file (request_for CONVERT_PDF_TO_WORD ["a.pdf"] ∅ "job-1")
      = inr task /\
    execute SampleRun.services task =
      ([ StatusLine "job-1" "processing" 0;
         StatusLine "job-1" "failed" 0;
         FailedLine "job-1" "Unknown conversion type: convert_pdf_to_word" ],
       Raise (PyException "ValueError"
                "Unknown conversion type: convert_pdf_to_word")).
Proof.
  split; [reflexivity|]. split; [discriminate|].
  apply (catalog_conversions_fail SampleRun.services CONVERT_PDF_TO_WORD
           ["a.pdf"] ∅ "job-1"); [reflexivity | discriminate].
Defined.

Lemma pdf_prefix_unknown (services : Services) (rest : string)
    (files : list string) (params : dict) :
  pdf_operation services ("pdf_" ++ rest) files params =
    Raise (PyException "ValueError" ("Unknown task type: pdf_" ++ rest)).
Proof.
  unfold pdf_operation.
  repeat (rewrite bool_decide_eq_false_2 by discriminate).
  reflexivity.
Qed.

(** X3. A task type that begins with [pdf_] is always handed to
    [process_pdf_task], which knows no such type: the task fails with the
    unknown-type error without calling a service.  So [pdf_to_word] and
    [pdf_to_image] never reach the conversion service. *)
Theorem pdf_prefix_never_converts (services : Services) (rest : string)
    (files : list string) (params : dict) (jid : string) :
  jid <> EmptyString ->
  process_file (mkProcessRequest (Some ("pdf_" ++ rest)) files params (Some jid))
    = inr (PdfTask ("pdf_" ++ rest) files params jid) /\
  snd (execute services (PdfTask ("pdf_" ++ rest) files params jid))
    = Raise (PyException "ValueError" ("Unknown task type: pdf_" ++ rest)).
Proof.
  intros Hjid. split.
  - unfold process_file.
    cbn [req_task_type req_job_id req_input_files req_parameters].
    rewrite (bool_decide_eq_false_2 (jid = EmptyString)) by exact Hjid.
    rewrite (bool_decide_eq_false_2 (_ = EmptyString)) by discriminate.
    destruct rest; reflexivity.
  - cbn [execute]. unfold process_pdf_task, run_reporting.
    rewrite pdf_prefix_unknown. reflexivity.
Qed.

Lemma pdf_prefix_never_converts_witness :
  "job-1" <> EmptyString /\
  process_file (mkProcessRequest (Some "pdf_to_word") ["a.pdf"] ∅ (Some "job-1"))
    = inr (PdfTask "pdf_to_word" ["a.pdf"] ∅ "job-1") /\
  snd (execute SampleRun.services (PdfTask "pdf_to_word" ["a.pdf"] ∅ "job-1"))
    = Raise (PyException "ValueError" "Unknown task type: pdf_to_word").
Proof.
  split; [discriminate|].
  apply (pdf_prefix_never_converts SampleRun.services "to_word" ["a.pdf"] ∅
           "job-1").
  discriminate.
Defined.

Lemma pdf_operation_Return (services : Services) (ty : string)
    (files : list string) (params r : dict) :
  pdf_operation services ty files params = Return r -> ty ∈ pdf_task_types.
Proof.
  unfold pdf_operation, pdf_task_types.
  repeat (case_bool_decide; [subst; intros _; set_solver|]).
  discriminate.
Qed.

Lemma conversion_operation_Return (services : Services) (ty : string)
    (file : option string) (params r : dict) :
  conversion_operation services ty file params = Return r ->
  ty ∈ conversion_task_types.
Proof.
  unfold conversion_operation, conversion_task_types.
  repeat (case_bool_decide; [subst; intros _; set_solver|]).
  discriminate.
Qed.

Lemma run_reporting_outcome (jid : string) (operation : outcome dict) :
  snd (run_reporting jid operation) = operation.
Proof. destruct operation; reflexivity. Qed.

(** X4. The worker can complete a dispatched request only when its task
    type is one of the nine PDF operations, [word_to_pdf], [image_to_pdf] or
    [ocr_processing]: for every other task type the dispatcher answers 400
    or the task raises, whatever the services do. *)
Theorem completed_only_for_known_types (services : Services)
    (data : ProcessRequest) (t : task) (r : dict) :
  process_file data = inr t ->
  snd (execute services t) = Return r ->
  exists ty, req_task_type data = Some ty /\ ty ∈ completable_task_types.
Proof.
  unfold process_file. intros Hd Hr.
  destruct (req_task_type data) as [ty|]; [|discriminate Hd].
  destruct (req_job_id data) as [jid|]; [|discriminate Hd].
  exists ty. split; [reflexivity|].
  destruct (_ || _); [discriminate Hd|].
  destruct (String.prefix "pdf_" ty) eqn:Hpdf.
  - simpl in Hd. injection Hd as <-. cbn [execute] in Hr.
    unfold process_pdf_task in Hr. rewrite run_reporting_outcome in Hr.
    apply pdf_operation_Return in Hr.
    unfold completable_task_types. apply elem_of_app. now left.
  - rewrite orb_false_l in Hd.
    destruct (bool_decide (ty ∈ pdf_task_types)) eqn:Hin.
    + apply bool_decide_eq_true in Hin.
      unfold completable_task_types. apply elem_of_app. now left.
    + destruct (_ || _).
      * injection Hd as <-. cbn [execute] in Hr.
        unfold convert_file_task in Hr. rewrite run_reporting_outcome in Hr.
        apply conversion_operation_Return in Hr.
        unfold conversion_task_types in Hr.
        unfold completable_task_types, pdf_task_types.
        repeat (apply elem_of_cons in Hr as [->|Hr]);
          try discriminate Hpdf; [set_solver | set_solver |].
        inversion Hr.
      * case_bool_decide; [|discriminate Hd]. subst ty.
        unfold completable_task_types, pdf_task_types. set_solver.
Qed.

Lemma completed_only_for_known_types_witness :
  process_file SampleRun.compress_request = inr SampleRun.compress_task /\
  snd (execute SampleRun.services SampleRun.compress_task)
    = Return SampleRun.ok_result /\
  exists ty, req_task_type SampleRun.compress_request = Some ty /\
             ty ∈ completable_task_types.
Proof.
  split; [reflexivity|]. split; [reflexivity|].
  apply (completed_only_for_known_types SampleRun.services
           SampleRun.compress_request SampleRun.compress_task
           SampleRun.ok_result); reflexivity.
Defined.

(** X5. The eight PDF operations on one file fail on an empty list of
    input files before any service is called: the task reports failed with
    the index error and raises it. *)
Theorem single_file_task_needs_input (services : Services) (ty : string)
    (params : dict) (jid : string) :
  ty ∈ pdf_task_types ->
  ty <> "merge_pdf" ->
  execute services (PdfTask ty [] params jid) =
    ([ StatusLine jid "processing" 0;
       StatusLine jid "failed" 0;
       FailedLine jid "list index out of range" ],
     Raise (PyException "IndexError" "list index out of range")).
Proof.
  unfold pdf_task_types. intros Hin Hne.
  repeat (apply elem_of_cons in Hin as [->|Hin]);
    try (exfalso; apply Hne; reflexivity); try reflexivity.
  inversion Hin.
Qed.

Lemma single_file_task_needs_input_witness :
  "split_pdf" ∈ pdf_task_types /\
  "split_pdf" <> "merge_pdf" /\
  execute SampleRun.services (PdfTask "split_pdf" [] ∅ "job-1") =
    ([ StatusLine "job-1" "processing" 0;
       StatusLine "job-1" "failed" 0;
       FailedLine "job-1" "list index out of range" ],
     Raise (PyException "IndexError" "list index out of range")).
Proof.
  assert (Hin : "split_pdf" ∈ pdf_task_types)
    by (unfold pdf_task_types; set_solver).
  split; [exact Hin|]. split; [discriminate|].
  apply (single_file_task_needs_input SampleRun.services "split_pdf" ∅ "job-1");
    [exact Hin | discriminate].
Defined.

(** X6. What a task prints tells how it ended.  The first line is the
    processing report of its job; a completed status is printed exactly when
    the task returns, a failed status exactly when it raises; and every line
    is about the job of the task. *)
Theorem task_output_tells_outcome (services : Services) (t : task) :
  let out := fst (execute services t) in
  let r := snd (execute services t) in
  head out = Some (StatusLine (task_job t) "processing" 0) /\
  (StatusLine (task_job t) "completed" 100 ∈ out <-> exists res, r = Return res) /\
  (StatusLine (task_job t) "failed" 0 ∈ out <-> exists e, r = Raise e) /\
  (forall l, l ∈ out -> line_job l = task_job t).
Proof.
  cbv zeta.
  assert (G : forall jid op,
    head (fst (run_reporting jid op)) = Some (StatusLine jid "processing" 0) /\
    (StatusLine jid "completed" 100 ∈ fst (run_reporting jid op)
       <-> exists res, snd (run_reporting jid op) = Return res) /\
    (StatusLine jid "failed" 0 ∈ fst (run_reporting jid op)
       <-> exists e, snd (run_reporting jid op) = Raise e) /\
    (forall l, l ∈ fst (run_reporting jid op) -> line_job l = jid)).
  { intros jid op. unfold run_reporting, update_job_status.
    destruct op as [res|e]; cbn [fst snd app bool_decide andb truthy_dict
      truthy_str default].
    - split; [reflexivity|]. split; [|split].
      + split; [eauto|]. intros _. set_solver.
      + split; [|intros [e He]; discriminate He].
        intros H. exfalso. simpl in H.
        destruct (negb (bool_decide (res = ∅))); simpl in H;
          repeat (apply elem_of_cons in H as [H|H]; [discriminate H|]);
          inversion H.
      + intros l H. simpl in H.
        destruct (negb (bool_decide (res = ∅))); simpl in H;
          repeat (apply elem_of_cons in H as [->|H]; [reflexivity|]);
          inversion H.
    - split; [reflexivity|]. split; [|split].
      + split; [|intros [res He]; discriminate He].
        intros H. exfalso. simpl in H.
        destruct (negb (bool_decide (str e = EmptyString))); simpl in H;
          repeat (apply elem_of_cons in H as [H|H]; [discriminate H|]);
          inversion H.
      + split; [eauto|]. intros _. set_solver.
      + intros l H. simpl in H.
        destruct (negb (bool_decide (str e = EmptyString))); simpl in H;
          repeat (apply elem_of_cons in H as [->|H]; [reflexivity|]);
          inversion H. }
  destruct t; apply G.
Qed.
(** ** The job service: what its operations never do *)

Import JobInvariants.


(** X8. A cancel call leaves the queue and the scheduled completion alone:
    whatever it returns, the ids waiting in [job_queue] and the sleeping
    background tasks are the same after the call as before. *)
Theorem cancel_job_unschedules_nothing (jid uid : string) (w : World) :
  queue_items (redis (snd (cancel_job jid uid w))) = queue_items (redis w) /\
  tasks (snd (cancel_job jid uid w)) = tasks w.
Proof. rewrite cancel_job_world. split; reflexivity. Qed.


Lemma identity_kept_refl (c : list Job) : identity_kept c c.
Proof. intros i j H. exists j. repeat split; exact H || reflexivity. Qed.

Lemma identity_kept_update (c : list Job) (i : nat) (j : Job) (u : UpdateData) :
  c !! i = Some j -> identity_kept c (<[i := apply_set u j]> c).
Proof.
  intros Hi k jk Hk.
  destruct (decide (k = i)) as [->|Hne].
  - rewrite Hi in Hk. injection Hk as <-. exists (apply_set u j).
    split; [|repeat split].
    apply list_lookup_insert_eq. eapply lookup_lt_Some, Hi.
  - exists jk. rewrite list_lookup_insert_ne by congruence.
    split; [exact Hk | repeat split].
Qed.

Lemma update_job_identity (jid : string) (p : JobUpdate) (w : World) :
  identity_kept (jobs w) (jobs (snd (update_job jid p w))).
Proof.
  rewrite update_job_jobs.
  destruct (first_with_job_id jid (jobs w)) as [[i j]|] eqn:E.
  - apply first_with_job_id_Some in E as [Hi _].
    now apply identity_kept_update.
  - apply identity_kept_refl.
Qed.

Lemma cancel_job_write_jobs (jid : string) (observed : JobStatus) (w : World) :
  jobs (snd (cancel_job_write jid observed w))
    = jobs (snd (update_job jid cancelled_update w)).
Proof.
  unfold cancel_job_write, bind.
  destruct (update_job jid cancelled_update w) as [[r|e] w']; simpl;
    [|reflexivity].
  destruct (bool_decide (observed = PENDING)); [|reflexivity].
  unfold _remove_from_queue. unfold_M.
  destruct (Redis.delete _ _) as [[n|e] c]; reflexivity.
Qed.

Lemma run_task_inv (i : nat) (w w' : World) :
  run_task i w = Some w' ->
  exists t, tasks w !! i = Some t /\ wake t <= now w /\
    w' = snd (process (task_job_id t) (with_tasks (base.delete i (tasks w)) w)).
Proof.
  unfold run_task. intros H.
  destruct (tasks w !! i) as [t|]; [|discriminate].
  case_bool_decide; [|discriminate].
  injection H as <-. eauto.
Qed.

(** X10. No step of the service removes, reorders or re-identifies a
    stored job: across creation, both halves of a cancel call, the
    simulated completion and the passing of time, every document stays at
    its position with the same document id, job id, job type, user, input
    files, parameters, priority and creation time. *)
Theorem server_step_keeps_identity (s s' : Server) :
  server_step s s' ->
  identity_kept (jobs (world s)) (jobs (world s')).
Proof.
  intros Hstep. destruct Hstep; simpl.
  - apply identity_kept_refl.
  - apply identity_kept_refl.
  - rewrite cancel_job_write_jobs. apply update_job_identity.
  - apply run_task_inv in H as (t & _ & _ & ->).
    rewrite process_jobs.
    apply (update_job_identity (task_job_id t) completed_update
             (with_tasks (base.delete i (tasks (world s))) (world s))).
  - apply identity_kept_refl.
Qed.

Lemma server_step_keeps_identity_witness :
  let s := mkServer (advance 2 SampleRun.queued) [] in
  let s' := mkServer (SampleRun.after_completion_of
                        (advance 2 SampleRun.queued)) [] in
  server_step s s' /\
  identity_kept (jobs (world s)) (jobs (world s')).
Proof.
  cbv zeta.
  assert (Hs : server_step (mkServer (advance 2 SampleRun.queued) [])
                 (mkServer (SampleRun.after_completion_of
                              (advance 2 SampleRun.queued)) [])).
  { apply (step_task 0 _ (mkServer (advance 2 SampleRun.queued) [])).
    reflexivity. }
  split; [exact Hs|].
  exact (server_step_keeps_identity _ _ Hs).
Defined.

(** X11. The service never stores a job.  In every state a server started
    on an empty collection reaches by creation requests, cancel calls,
    background tasks and the passing of time, the collection is still
    empty, no background task is scheduled and no cancel call waits for
    its write. *)
Theorem reachable_stores_nothing (s : Server) :
  reachable s ->
  jobs (world s) = [] /\ tasks (world s) = [] /\ suspended s = [].
Proof.
  intros Hr.
  assert (H : exists t r, s = mkServer (mkWorld t [] r []) []).
  { induction Hr as [t r | s s' Hr IH Hstep]; [eauto|].
    destruct IH as (t & r & Hs).
    destruct Hstep as [d caller uj ud s0 | jid uid observed s0 Hread
                      | i jid observed s0 Hsusp | i w' s0 Htask | d s0 Hd];
      subst s0; simpl in *.
    - eexists _, _. reflexivity.
    - discriminate Hread.
    - discriminate Hsusp.
    - unfold run_task in Htask. simpl in Htask. discriminate Htask.
    - eexists _, _. reflexivity. }
  destruct H as (t & r & ->). simpl. repeat split.
Qed.

Lemma reachable_stores_nothing_witness :
  let s := mkServer (advance 3
             (snd (create_job Sample.compress_request "alice" "job-1" "doc-1"
                     Sample.fresh_world))) [] in
  reachable s /\
  jobs (world s) = [] /\ tasks (world s) = [] /\ suspended s = [].
Proof.
  cbv zeta.
  assert (Hr : reachable (mkServer (advance 3
             (snd (create_job Sample.compress_request "alice" "job-1" "doc-1"
                     Sample.fresh_world))) [])).
  { eapply reachable_step;
      [eapply reachable_step; [apply (reachable_start 0 (Redis.Connected ∅))|]|].
    - apply (step_create Sample.compress_request "alice" "job-1" "doc-1"
               (mkServer Sample.fresh_world [])).
    - apply (step_advance 3
               (mkServer (snd (create_job Sample.compress_request "alice"
                                 "job-1" "doc-1" Sample.fresh_world)) [])).
      lia. }
  split; [exact Hr|].
  exact (reachable_stores_nothing _ Hr).
Defined.

(** ** Queueing and the simulated completion *)


(** X28. The simulated completion does not look at the status.  Whatever
    the first document with the job id holds, be it cancelled, failed with
    an error message or completed already, the body of [process()] stores
    status completed, progress 100 and the completion message as result in
    it and sets a completion time; the error message and the fields set at
    creation stay, and no other document changes. *)
Theorem completion_overrides_status (jid : string) (w : World) (i : nat)
    (j : Job) :
  first_with_job_id jid (jobs w) = Some (i, j) ->
  exists j',
    jobs (snd (process jid w)) = <[i := j']> (jobs w) /\
    status j' = COMPLETED /\ progress j' = 100 /\
    result j' = Some {[ "message" := "Job completed successfully" ]} /\
    is_Some (completed_at j') /\
    error_message j' = error_message j /\
    job_id j' = job_id j /\ user_id j' = user_id j /\
    job_type j' = job_type j /\ input_files j' = input_files j /\
    created_at j' = created_at j.
Proof.
  intros E. rewrite process_jobs, update_job_jobs, E.
  eexists. split; [reflexivity|]. simpl. repeat split. eexists. reflexivity.
Qed.

Lemma completion_overrides_status_witness :
  let w := Sample.world_with (Sample.job_in CANCELLED 0) in
  first_with_job_id "job-1" (jobs w) = Some (0%nat, Sample.job_in CANCELLED 0) /\
  exists j',
    jobs (snd (process "job-1" w)) = <[0%nat := j']> (jobs w) /\
    status j' = COMPLETED /\ progress j' = 100 /\
    result j' = Some {[ "message" := "Job completed successfully" ]} /\
    is_Some (completed_at j') /\
    error_message j' = error_message (Sample.job_in CANCELLED 0) /\
    job_id j' = job_id (Sample.job_in CANCELLED 0) /\
    user_id j' = user_id (Sample.job_in CANCELLED 0) /\
    job_type j' = job_type (Sample.job_in CANCELLED 0) /\
    input_files j' = input_files (Sample.job_in CANCELLED 0) /\
    created_at j' = created_at (Sample.job_in CANCELLED 0).
Proof.
  cbv zeta. split; [reflexivity|].
  exact (completion_overrides_status "job-1"
           (Sample.world_with (Sample.job_in CANCELLED 0)) 0
           (Sample.job_in CANCELLED 0) eq_refl).
Defined.

(** ** Files and share links *)

Import FileService.

(** X18. A shared link never serves a file and never counts a download.
    When no active link has the link id, [get_shared_file] returns [None]
    and GET /shared/{link_id} answers 404.  When an active link has it, the
    call raises the [TypeError] of the identifier validator while making an
    object of the link, before the expiry, the download limit and the
    password are looked at, and so does the endpoint.  The store, and with
    it every download count, is left as it was. *)
Theorem shared_access_never_grants (lid : string) (given : option string)
    (st : Store) :
  match List.find (active_link lid) (shared_links st) with
  | None =>
      get_shared_file lid given st = (Return None, st) /\
      shared_endpoint lid given st
        = (Raise (HTTPException 404 "Shared link not found or expired"), st)
  | Some _ =>
      get_shared_file lid given st = (Raise validator_call_error, st) /\
      shared_endpoint lid given st = (Raise validator_call_error, st)
  end.
Proof.
  unfold shared_endpoint, get_shared_file.
  destruct (List.find (active_link lid) (shared_links st)) as [l|];
    split; reflexivity.
Qed.




(** ** Allowed file names *)

Import Upload.

Example is_allowed_examples :
  is_allowed_file "report.PDF" = true /\
  is_allowed_file "archive.tar.gz" = false /\
  is_allowed_file "x.pdf.exe" = false /\
  is_allowed_file "a..pdf" = true /\
  is_allowed_file ".pdf" = false /\
  is_allowed_file "...pdf" = false /\
  is_allowed_file "uploads/.pdf" = false /\
  is_allowed_file "a/b.c/.d.pdf" = true /\
  is_allowed_file "dir.v2/readme" = false /\
  is_allowed_file "x." = false /\
  is_allowed_file "photo.JpEg" = true.
Proof. repeat split; vm_compute; reflexivity. Qed.

Lemma rfind_from_app (c : ascii) (a b : list ascii) (i found : Z) :
  rfind_from c (a ++ b) i found
    = rfind_from c b (i + Z.of_nat (length a)) (rfind_from c a i found).
Proof.
  revert i found. induction a as [|x a IH]; intros i found; simpl.
  - f_equal. lia.
  - rewrite IH. f_equal. lia.
Qed.

Lemma rfind_from_absent (c : ascii) (p : list ascii) (i found : Z) :
  c ∉ p -> rfind_from c p i found = found.
Proof.
  revert i found. induction p as [|x p IH]; intros i found H; simpl.
  - reflexivity.
  - rewrite IH by (intros Hin; apply H; now right).
    rewrite bool_decide_eq_false_2; [reflexivity|].
    intros ->. apply H. left.
Qed.

Lemma rfind_from_bound (c : ascii) (p : list ascii) (i found : Z) :
  found < i -> rfind_from c p i found < i + Z.of_nat (length p).
Proof.
  revert i found. induction p as [|x p IH]; intros i found H; simpl.
  - lia.
  - specialize (IH (i + 1) (if bool_decide (x = c) then i else found)).
    destruct (bool_decide (x = c)); lia.
Qed.

(** The last occurrence, when the text after it has none. *)
Lemma rfind_last (c : ascii) (a b : list ascii) :
  c ∉ b -> rfind c (a ++ c :: b) = Z.of_nat (length a).
Proof.
  intros H. unfold rfind. rewrite rfind_from_app. simpl.
  rewrite bool_decide_eq_true_2 by reflexivity.
  rewrite rfind_from_absent by exact H. lia.
Qed.

Lemma rfind_app_absent (c : ascii) (a b : list ascii) :
  c ∉ b -> rfind c (a ++ b) = rfind c a.
Proof.
  intros H. unfold rfind. rewrite rfind_from_app.
  now apply rfind_from_absent.
Qed.

Lemma rfind_lt_length (c : ascii) (p : list ascii) :
  -1 <= rfind c p < Z.of_nat (length p).
Proof.
  unfold rfind. split.
  - assert (G : forall i found, found <= rfind_from c p i found /\ -1 <= found
                  -> -1 <= rfind_from c p i found) by (intros; lia).
    assert (M : forall q i found, -1 <= found -> 0 <= i ->
                  -1 <= rfind_from c q i found).
    { induction q as [|x q IH]; intros i found Hf Hi; simpl; [exact Hf|].
      apply IH; [destruct (bool_decide (x = c)); lia | lia]. }
    apply M; lia.
  - pose proof (rfind_from_bound c p 0 (-1)). lia.
Qed.

Lemma lower_ascii_not_dot (c : ascii) : c <> dot -> lower_ascii c <> dot.
Proof.
  intros Hc. unfold lower_ascii.
  destruct ((65 <=? nat_of_ascii c)%nat && (nat_of_ascii c <=? 90)%nat) eqn:E;
    [|exact Hc].
  apply andb_true_iff in E as [E1 E2].
  apply Nat.leb_le in E1, E2.
  intros H. apply (f_equal nat_of_ascii) in H.
  rewrite nat_ascii_embedding in H by lia.
  change (nat_of_ascii dot) with 46%nat in H. lia.
Qed.

Lemma lstrip_dots_lower (e : list ascii) :
  dot ∉ e -> lstrip_dots (lower_ascii <$> e) = lower_ascii <$> e.
Proof.
  destruct e as [|x e]; [reflexivity|]. intros H. simpl.
  rewrite bool_decide_eq_false_2; [reflexivity|].
  apply lower_ascii_not_dot. intros ->. apply H. left.
Qed.

(** The extension of a name whose last dot follows a character that is
    neither a dot nor a slash. *)
Lemma splitext_ext_last_dot (stem e : list ascii) (c : ascii) :
  c <> dot -> c <> slash -> dot ∉ e -> slash ∉ e ->
  splitext_ext (stem ++ c :: dot :: e) = dot :: e.
Proof.
  intros Hcd Hcs Hde Hse. unfold splitext_ext.
  assert (Hdot : rfind dot (stem ++ c :: dot :: e)
                 = Z.of_nat (length stem) + 1).
  { replace (stem ++ c :: dot :: e)%list with ((stem ++ [c]) ++ dot :: e)%list
      by (rewrite <- app_assoc; reflexivity).
    rewrite rfind_last by exact Hde. rewrite length_app. simpl. lia. }
  assert (Hsep : rfind slash (stem ++ c :: dot :: e) = rfind slash stem).
  { replace (stem ++ c :: dot :: e)%list with (stem ++ (c :: dot :: e))%list by reflexivity.
    apply rfind_app_absent.
    intros H. apply elem_of_cons in H as [H|H]; [congruence|].
    apply elem_of_cons in H as [H|H]; [discriminate H | exact (Hse H)]. }
  rewrite Hdot, Hsep.
  pose proof (rfind_lt_length slash stem) as [Hlo Hhi].
  rewrite bool_decide_eq_true_2 by lia.
  assert (Hslice : slice (rfind slash stem + 1) (Z.of_nat (length stem) + 1)
                     (stem ++ c :: dot :: e)
                   = (drop (Z.to_nat (rfind slash stem + 1)) stem ++ [c])%list).
  { unfold slice.
    replace (Z.to_nat (Z.of_nat (length stem) + 1)) with (length (stem ++ [c])%list)
      by (rewrite length_app; simpl; lia).
    replace (stem ++ c :: dot :: e)%list with ((stem ++ [c]) ++ dot :: e)%list
      by (rewrite <- app_assoc; reflexivity).
    rewrite take_app_length. rewrite drop_app_le by lia. reflexivity. }
  rewrite Hslice, existsb_app. simpl.
  rewrite (bool_decide_eq_false_2 (c = dot)) by exact Hcd. simpl.
  rewrite orb_true_r.
  replace (Z.to_nat (Z.of_nat (length stem) + 1)) with (length (stem ++ [c])%list)
    by (rewrite length_app; simpl; lia).
  replace (stem ++ c :: dot :: e)%list with ((stem ++ [c]) ++ dot :: e)%list
    by (rewrite <- app_assoc; reflexivity).
  apply drop_app_length.
Qed.

(** X24. Only the last extension counts, and its case does not.  A file
    name whose last dot follows a character that is neither a dot nor a
    slash, with no slash after that dot, is allowed exactly when the text
    after the dot, in lower case, is one of the allowed extensions. *)
Theorem allowed_by_last_extension (stem e : list ascii) (c : ascii) :
  c <> dot -> c <> slash -> dot ∉ e -> slash ∉ e ->
  is_allowed_file (string_of_list_ascii (stem ++ c :: dot :: e))
    = bool_decide (string_of_list_ascii (lower_ascii <$> e) ∈ ALLOWED_EXTENSIONS).
Proof.
  intros Hcd Hcs Hde Hse. unfold is_allowed_file, file_ext.
  rewrite list_ascii_of_string_of_list_ascii.
  rewrite (splitext_ext_last_dot stem e c Hcd Hcs Hde Hse).
  rewrite (bool_decide_eq_false_2 (_ = EmptyString))
    by (destruct stem; discriminate).
  rewrite fmap_cons. change (lower_ascii dot) with dot. cbn [lstrip_dots].
  rewrite (bool_decide_eq_true_2 (dot = dot)) by reflexivity.
  rewrite lstrip_dots_lower by exact Hde. reflexivity.
Qed.

Lemma allowed_by_last_extension_witness :
  "e"%char <> dot /\ "e"%char <> slash /\
  (dot ∉ list_ascii_of_string "PdF") /\
  (slash ∉ list_ascii_of_string "PdF") /\
  is_allowed_file "uploads/x.exe.PdF" = true.
Proof.
  assert (Hd : dot ∉ list_ascii_of_string "PdF")
    by (simpl; intros H; repeat (apply elem_of_cons in H as [H|H];
          [discriminate H|]); inversion H).
  assert (Hs : slash ∉ list_ascii_of_string "PdF")
    by (simpl; intros H; repeat (apply elem_of_cons in H as [H|H];
          [discriminate H|]); inversion H).
  split; [discriminate|]. split; [discriminate|].
  split; [exact Hd|]. split; [exact Hs|].
  exact (allowed_by_last_extension (list_ascii_of_string "uploads/x.ex")
           (list_ascii_of_string "PdF") "e"%char
           ltac:(discriminate) ltac:(discriminate) Hd Hs).
Defined.

(** Where the last occurrence is, when there is one. *)
Lemma rfind_found (c : ascii) (p : list ascii) :
  0 <= rfind c p ->
  exists a b, p = (a ++ c :: b)%list /\ rfind c p = Z.of_nat (length a) /\ c ∉ b.
Proof.
  intros H. destruct (decide (c ∈ p)) as [Hin|Hout].
  - apply list_elem_of_split_r in Hin as (a & b & -> & Hb).
    exists a, b. split; [reflexivity|]. split; [|exact Hb].
    now apply rfind_last.
  - unfold rfind in H. rewrite rfind_from_absent in H by exact Hout. lia.
Qed.

Lemma rfind_after (c : ascii) (a b : list ascii) :
  c ∈ b -> Z.of_nat (length a) <= rfind c (a ++ b).
Proof.
  intros Hin. apply list_elem_of_split_r in Hin as (b1 & b2 & -> & Hb).
  rewrite app_assoc, rfind_last by exact Hb. rewrite length_app. lia.
Qed.

Lemma empty_not_allowed : EmptyString ∉ ALLOWED_EXTENSIONS.
Proof.
  intros H. apply (bool_decide_eq_true_2 _) in H. vm_compute in H. discriminate H.
Qed.

(** X25. Nothing is allowed without an allowed extension at its end: an
    allowed file name ends in a dot followed by text that has neither a dot
    nor a slash in it and that is, in lower case, one of the allowed
    extensions. *)
Theorem allowed_has_allowed_extension (filename : string) :
  is_allowed_file filename = true ->
  exists a e, list_ascii_of_string filename = (a ++ dot :: e)%list /\
    (dot ∉ e) /\ (slash ∉ e) /\
    string_of_list_ascii (lower_ascii <$> e) ∈ ALLOWED_EXTENSIONS.
Proof.
  unfold is_allowed_file, file_ext, splitext_ext.
  set (p := list_ascii_of_string filename).
  destruct (bool_decide (filename = EmptyString)); [discriminate|].
  intros H. apply bool_decide_eq_true in H.
  pose proof (rfind_lt_length slash p) as [Hlo _].
  case_bool_decide as Hlt; [|exfalso; exact (empty_not_allowed H)].
  destruct (existsb _ _); [|exfalso; exact (empty_not_allowed H)].
  destruct (rfind_found dot p ltac:(lia)) as (a & e & Hp & Hidx & He).
  rewrite Hidx, Nat2Z.id in H. rewrite Hidx in Hlt.
  rewrite Hp in H, Hlt. rewrite drop_app_length in H.
  rewrite fmap_cons in H. change (lower_ascii dot) with dot in H.
  cbn [lstrip_dots] in H.
  rewrite (bool_decide_eq_true_2 (dot = dot)) in H by reflexivity.
  rewrite lstrip_dots_lower in H by exact He.
  exists a, e. split; [exact Hp|]. split; [exact He|]. split; [|exact H].
  intros Hs.
  pose proof (rfind_after slash (a ++ [dot]) e Hs) as Ha.
  rewrite <- app_assoc in Ha. simpl in Ha. rewrite length_app in Ha.
  simpl in Ha. lia.
Qed.

Lemma allowed_has_allowed_extension_witness :
  is_allowed_file "a/b.c/.d.pdf" = true /\
  exists a e, list_ascii_of_string "a/b.c/.d.pdf" = (a ++ dot :: e)%list /\
    (dot ∉ e) /\ (slash ∉ e) /\
    string_of_list_ascii (lower_ascii <$> e) ∈ ALLOWED_EXTENSIONS.
Proof.
  split; [vm_compute; reflexivity|].
  apply (allowed_has_allowed_extension "a/b.c/.d.pdf").
  vm_compute; reflexivity.
Defined.

(** X26. Hidden files have no extension.  A name whose last component is
    one or more dots followed by text without a dot, such as [.pdf] or
    [uploads/..pdf], is rejected even when that text is an allowed
    extension. *)
Theorem dot_file_is_rejected (dir dots e : list ascii) :
  dir = [] \/ (exists d, dir = (d ++ [slash])%list) ->
  Forall (eq dot) dots -> (dot ∉ e) -> (slash ∉ e) ->
  is_allowed_file (string_of_list_ascii (dir ++ dots ++ dot :: e)) = false.
Proof.
  intros Hdir Hdots Hde Hse. unfold is_allowed_file, file_ext.
  rewrite list_ascii_of_string_of_list_ascii.
  destruct (bool_decide (_ = EmptyString)); [reflexivity|].
  assert (Hext : splitext_ext (dir ++ dots ++ dot :: e) = []);
    [|rewrite Hext; apply bool_decide_eq_false_2; exact empty_not_allowed].
  unfold splitext_ext.
  assert (Hdot : rfind dot (dir ++ dots ++ dot :: e)
                 = Z.of_nat (length dir + length dots)).
  { rewrite app_assoc, rfind_last by exact Hde. now rewrite length_app. }
  assert (Hrest : slash ∉ (dots ++ dot :: e)%list).
  { intros H. apply elem_of_app in H as [H|H].
    - rewrite Forall_forall in Hdots. specialize (Hdots _ H). discriminate Hdots.
    - apply elem_of_cons in H as [H|H]; [discriminate H | exact (Hse H)]. }
  assert (Hsep : rfind slash (dir ++ dots ++ dot :: e)
                 = Z.of_nat (length dir) - 1).
  { destruct Hdir as [->|[d ->]].
    - simpl. unfold rfind. now rewrite rfind_from_absent.
    - rewrite <- app_assoc. simpl.
      rewrite rfind_last by exact Hrest. rewrite length_app. simpl. lia. }
  rewrite Hdot, Hsep. case_bool_decide; [|reflexivity].
  replace (Z.of_nat (length dir) - 1 + 1) with (Z.of_nat (length dir)) by lia.
  unfold slice. rewrite !Nat2Z.id.
  assert (Hslice : drop (length dir)
                     (take (length dir + length dots) (dir ++ dots ++ dot :: e))
                   = dots).
  { rewrite take_app_add', drop_app_length by reflexivity.
    apply take_app_length. }
  rewrite Hslice.
  assert (Hall : existsb (fun x => negb (bool_decide (x = dot))) dots = false).
  { clear -Hdots. induction Hdots as [|x l Hx _ IH]; [reflexivity|].
    simpl. subst x. rewrite (bool_decide_eq_true_2 (dot = dot)) by reflexivity.
    exact IH. }
  now rewrite Hall.
Qed.

Lemma dot_file_is_rejected_witness :
  (list_ascii_of_string "uploads/" = []
   \/ exists d, list_ascii_of_string "uploads/" = (d ++ [slash])%list) /\
  Forall (eq dot) [dot] /\
  (dot ∉ list_ascii_of_string "pdf") /\
  (slash ∉ list_ascii_of_string "pdf") /\
  is_allowed_file "uploads/..pdf" = false.
Proof.
  assert (Hdir : list_ascii_of_string "uploads/" = []
            \/ exists d, list_ascii_of_string "uploads/" = (d ++ [slash])%list)
    by (right; exists (list_ascii_of_string "uploads"); reflexivity).
  assert (Hdots : Forall (eq dot) [dot]) by (repeat constructor).
  assert (Hd : dot ∉ list_ascii_of_string "pdf")
    by (simpl; intros H; repeat (apply elem_of_cons in H as [H|H];
          [discriminate H|]); inversion H).
  assert (Hs : slash ∉ list_ascii_of_string "pdf")
    by (simpl; intros H; repeat (apply elem_of_cons in H as [H|H];
          [discriminate H|]); inversion H).
  split; [exact Hdir|]. split; [exact Hdots|].
  split; [exact Hd|]. split; [exact Hs|].
  exact (dot_file_is_rejected (list_ascii_of_string "uploads/") [dot]
           (list_ascii_of_string "pdf") Hdir Hdots Hd Hs).
Defined.
